(** * A paint surface with bounded undo/redo: the drawing-and-history engine

    Shallow embedding of [src/scirpt.js].  The script is one closure over a
    handful of mutable variables ([drawing], [lastPoint], [tool], [color],
    [size], [undoStack], [redoStack]) and the DOM objects it talks to (the
    canvas, its 2D context, two buttons).  Every function of the script is a
    function on an explicit [State] record; a function that can throw returns
    an [Outcome].

    JavaScript numbers are IEEE 754 binary64 values and are modelled by Rocq's
    primitive floats, so that division by zero yields an infinity or a NaN as
    it does in the script.  The canvas bitmap and the image codec belong to the
    user agent, not to the script: they are the operations of the class
    [UserAgent], and the script is verified against every instance of it. *)

From Stdlib Require Import ZArith List Ascii String Bool Lia.
From Stdlib Require Import Floats.
Import ListNotations.

Local Open Scope Z_scope.

(** ** JavaScript numbers *)

Module JS.

Definition number := float.
Bind Scope float_scope with number.

(** Truthiness of a number: [0], [-0] and [NaN] are falsy. *)
Definition truthy (x : number) : bool :=
  negb (PrimFloat.is_zero x || PrimFloat.is_nan x).

(** [x || y] on numbers. *)
Definition or_else (x y : number) : number :=
  if truthy x then x else y.

(** [Math.max(x, y)]: NaN when either is NaN, and [+0] is larger than [-0]. *)
Definition Math_max (x y : number) : number :=
  if PrimFloat.is_nan x || PrimFloat.is_nan y then PrimFloat.nan
  else if PrimFloat.ltb x y then y
  else if PrimFloat.ltb y x then x
  else if PrimFloat.get_sign x then y else x.

(** An integer of magnitude below 2^63 as a number (exact below 2^53). *)
Definition of_Z (n : Z) : number :=
  let m := PrimFloat.of_uint63 (Uint63.of_Z (Z.abs n)) in
  if n <? 0 then PrimFloat.opp m else m.

(** The mathematical value of a finite number is [sgn * m * 2^e]. *)
Definition signed (s : bool) (n : Z) : Z := if s then - n else n.

(** [Math.round(x)]: the integer nearest to [x], ties towards +infinity;
    zeros, infinities and NaN are returned as they are, and a result of
    zero keeps the sign of [x]. *)
Definition Math_round (x : number) : number :=
  match Prim2SF x with
  | S754_finite s m e =>
      if 0 <=? e then x
      else
        let k := - e in
        let n := (2 * signed s (Z.pos m) + 2 ^ k) / 2 ^ (k + 1) in
        if n =? 0 then (if s then PrimFloat.neg_zero else PrimFloat.zero)
        else of_Z n
  | _ => x
  end.

(** Truncation of a finite number towards zero. *)
Definition trunc (x : number) : Z :=
  match Prim2SF x with
  | S754_finite s m e =>
      if 0 <=? e then signed s (Z.pos m * 2 ^ e)
      else signed s (Z.pos m / 2 ^ (- e))
  | _ => 0
  end.

(** Web IDL conversion of a number to [unsigned long]: NaN, zeros and
    infinities give 0, anything else is truncated and reduced modulo 2^32. *)
Definition to_unsigned_long (x : number) : Z :=
  (trunc x) mod 2 ^ 32.

(** An [unsigned long] attribute that reflects a content attribute, as
    [canvas.width] and [canvas.height] do: a value above 2^31 - 1 is
    replaced by the attribute's default. *)
Definition reflect_unsigned_long (default : Z) (x : number) : Z :=
  let n := to_unsigned_long x in
  if n <=? 2147483647 then n else default.

End JS.

Bind Scope float_scope with JS.number.

(** ** The canvas interface *)

(** [{x, y}] objects. *)
Record Point := mkPoint { x : JS.number; y : JS.number }.

(** The calls that build the current path, in the order the script issues
    them.  What a call does to the geometry (a call with a non-finite argument
    is dropped, a curve on an empty path first moves to its control point) is
    the rasteriser's business, see [stroke] below. *)
Inductive PathCmd :=
| moveTo (px py : JS.number)
| quadraticCurveTo (cpx cpy px py : JS.number)
| closePath.

(** The drawing state of a 2D context: what [ctx.save()] pushes. *)
Record DrawState := mkDrawState {
  transform : JS.number * JS.number * JS.number * JS.number * JS.number * JS.number;
  globalCompositeOperation : string;
  strokeStyle : string;
  fillStyle : string;
  lineWidth : JS.number;
  lineJoin : string;
  lineCap : string
}.

Definition default_DrawState : DrawState :=
  {| transform := (1, 0, 0, 1, 0, 0)%float;
     globalCompositeOperation := "source-over";
     strokeStyle := "#000000";
     fillStyle := "#000000";
     lineWidth := 1%float;
     lineJoin := "miter";
     lineCap := "butt" |}.

Record Context := mkContext {
  cur : DrawState;
  saved : list DrawState;
  path : list PathCmd
}.

Definition default_Context : Context :=
  {| cur := default_DrawState; saved := []; path := [] |}.

(** What the user agent does for the script on bitmaps of type [bitmap]:
    the drawing operations of a canvas and the image codec.  [toDataURL]
    answers [None] when the call throws, [decode] answers [None] when the
    image never fires its load event.  [toBlob] answers [None] when the
    call throws, [Some None] when the callback is handed [null] (the
    bitmap could not be serialised) and [Some (Some data)] when it is
    handed a blob of [data]. *)
Class UserAgent (bitmap : Type) : Type := {
  blank : Z -> Z -> bitmap;
  fillRect : DrawState -> JS.number -> JS.number -> JS.number -> JS.number ->
             bitmap -> bitmap;
  clearRect : DrawState -> JS.number -> JS.number -> JS.number -> JS.number ->
              bitmap -> bitmap;
  drawImage : DrawState -> bitmap -> JS.number -> JS.number ->
              option (JS.number * JS.number) -> bitmap -> bitmap;
  stroke : DrawState -> list PathCmd -> bitmap -> bitmap;
  toDataURL : bitmap -> string -> option string;
  toBlob : bitmap -> string -> option (option string);
  decode : string -> option bitmap
}.

(** ** The page and the script's state *)

Inductive Tool := brush | eraser.

(** What [getBoundingClientRect] and [window] report when asked. *)
Record World := mkWorld {
  rect_left : JS.number;
  rect_top : JS.number;
  rect_width : JS.number;
  rect_height : JS.number;
  devicePixelRatio : JS.number
}.

Record ToolButton := mkToolButton {
  active : bool;             (* classList contains 'active' *)
  aria_pressed : bool        (* aria-pressed is 'true' *)
}.

(** The exceptions a listener of the script can end with. *)
Inductive Exception := InvalidStateError | SecurityError | TypeError.

Section Script.

Context {bitmap : Type} {UA : UserAgent bitmap}.

Record Canvas := mkCanvas {
  width : Z;
  height : Z;
  style_width : option JS.number;      (* [Some w]: style.width is w px *)
  style_height : option JS.number;
  bits : bitmap
}.

Record State := mkState {
  (* the closure's variables *)
  drawing : bool;
  lastPoint : option Point;
  tool : Tool;
  color : string;
  size : JS.number;
  undoStack : list string;
  redoStack : list string;
  (* the DOM objects the closure holds *)
  canvas : Canvas;
  ctx : Context;
  brushBtn : ToolButton;
  eraserBtn : ToolButton;
  undoBtn_disabled : bool;
  redoBtn_disabled : bool;
  (* what the user agent keeps for the script *)
  captured : list Z;          (* pointers captured by the canvas *)
  loading : list string;      (* images whose [src] is set and [onload] not yet run *)
  resizeTimer : bool;         (* the debounce timer is armed *)
  exporting : list (option string);
                              (* [toBlob] callbacks not yet run: the blob
                                 each is handed, [None] for [null] *)
  world : World
}.

Inductive Outcome :=
| Done (s : State)
| Thrown (e : Exception) (s : State).

Definition after (o : Outcome) : State :=
  match o with Done s | Thrown _ s => s end.

Definition raised (o : Outcome) : bool :=
  match o with Done _ => false | Thrown _ _ => true end.

(** *** Field updates *)

Definition set_drawing (b : bool) (s : State) : State :=
  mkState b s.(lastPoint) s.(tool) s.(color) s.(size) s.(undoStack) s.(redoStack)
    s.(canvas) s.(ctx) s.(brushBtn) s.(eraserBtn) s.(undoBtn_disabled)
    s.(redoBtn_disabled) s.(captured) s.(loading) s.(resizeTimer) s.(exporting)
    s.(world).

Definition set_lastPoint (p : option Point) (s : State) : State :=
  mkState s.(drawing) p s.(tool) s.(color) s.(size) s.(undoStack) s.(redoStack)
    s.(canvas) s.(ctx) s.(brushBtn) s.(eraserBtn) s.(undoBtn_disabled)
    s.(redoBtn_disabled) s.(captured) s.(loading) s.(resizeTimer) s.(exporting)
    s.(world).

Definition set_tool (t : Tool) (s : State) : State :=
  mkState s.(drawing) s.(lastPoint) t s.(color) s.(size) s.(undoStack) s.(redoStack)
    s.(canvas) s.(ctx) s.(brushBtn) s.(eraserBtn) s.(undoBtn_disabled)
    s.(redoBtn_disabled) s.(captured) s.(loading) s.(resizeTimer) s.(exporting)
    s.(world).

Definition set_color (c : string) (s : State) : State :=
  mkState s.(drawing) s.(lastPoint) s.(tool) c s.(size) s.(undoStack) s.(redoStack)
    s.(canvas) s.(ctx) s.(brushBtn) s.(eraserBtn) s.(undoBtn_disabled)
    s.(redoBtn_disabled) s.(captured) s.(loading) s.(resizeTimer) s.(exporting)
    s.(world).

Definition set_size (n : JS.number) (s : State) : State :=
  mkState s.(drawing) s.(lastPoint) s.(tool) s.(color) n s.(undoStack) s.(redoStack)
    s.(canvas) s.(ctx) s.(brushBtn) s.(eraserBtn) s.(undoBtn_disabled)
    s.(redoBtn_disabled) s.(captured) s.(loading) s.(resizeTimer) s.(exporting)
    s.(world).

Definition set_undoStack (l : list string) (s : State) : State :=
  mkState s.(drawing) s.(lastPoint) s.(tool) s.(color) s.(size) l s.(redoStack)
    s.(canvas) s.(ctx) s.(brushBtn) s.(eraserBtn) s.(undoBtn_disabled)
    s.(redoBtn_disabled) s.(captured) s.(loading) s.(resizeTimer) s.(exporting)
    s.(world).

Definition set_redoStack (l : list string) (s : State) : State :=
  mkState s.(drawing) s.(lastPoint) s.(tool) s.(color) s.(size) s.(undoStack) l
    s.(canvas) s.(ctx) s.(brushBtn) s.(eraserBtn) s.(undoBtn_disabled)
    s.(redoBtn_disabled) s.(captured) s.(loading) s.(resizeTimer) s.(exporting)
    s.(world).

Definition set_canvas (c : Canvas) (s : State) : State :=
  mkState s.(drawing) s.(lastPoint) s.(tool) s.(color) s.(size) s.(undoStack) s.(redoStack)
    c s.(ctx) s.(brushBtn) s.(eraserBtn) s.(undoBtn_disabled)
    s.(redoBtn_disabled) s.(captured) s.(loading) s.(resizeTimer) s.(exporting)
    s.(world).

Definition set_ctx (c : Context) (s : State) : State :=
  mkState s.(drawing) s.(lastPoint) s.(tool) s.(color) s.(size) s.(undoStack) s.(redoStack)
    s.(canvas) c s.(brushBtn) s.(eraserBtn) s.(undoBtn_disabled)
    s.(redoBtn_disabled) s.(captured) s.(loading) s.(resizeTimer) s.(exporting)
    s.(world).

Definition set_toolButtons (b e : ToolButton) (s : State) : State :=
  mkState s.(drawing) s.(lastPoint) s.(tool) s.(color) s.(size) s.(undoStack) s.(redoStack)
    s.(canvas) s.(ctx) b e s.(undoBtn_disabled)
    s.(redoBtn_disabled) s.(captured) s.(loading) s.(resizeTimer) s.(exporting)
    s.(world).

Definition set_disabled (u r : bool) (s : State) : State :=
  mkState s.(drawing) s.(lastPoint) s.(tool) s.(color) s.(size) s.(undoStack) s.(redoStack)
    s.(canvas) s.(ctx) s.(brushBtn) s.(eraserBtn) u r
    s.(captured) s.(loading) s.(resizeTimer) s.(exporting)
    s.(world).

Definition set_captured (l : list Z) (s : State) : State :=
  mkState s.(drawing) s.(lastPoint) s.(tool) s.(color) s.(size) s.(undoStack) s.(redoStack)
    s.(canvas) s.(ctx) s.(brushBtn) s.(eraserBtn) s.(undoBtn_disabled)
    s.(redoBtn_disabled) l s.(loading) s.(resizeTimer) s.(exporting)
    s.(world).

Definition set_loading (l : list string) (s : State) : State :=
  mkState s.(drawing) s.(lastPoint) s.(tool) s.(color) s.(size) s.(undoStack) s.(redoStack)
    s.(canvas) s.(ctx) s.(brushBtn) s.(eraserBtn) s.(undoBtn_disabled)
    s.(redoBtn_disabled) s.(captured) l s.(resizeTimer) s.(exporting)
    s.(world).

Definition set_resizeTimer (b : bool) (s : State) : State :=
  mkState s.(drawing) s.(lastPoint) s.(tool) s.(color) s.(size) s.(undoStack) s.(redoStack)
    s.(canvas) s.(ctx) s.(brushBtn) s.(eraserBtn) s.(undoBtn_disabled)
    s.(redoBtn_disabled) s.(captured) s.(loading) b s.(exporting) s.(world).

Definition set_exporting (l : list (option string)) (s : State) : State :=
  mkState s.(drawing) s.(lastPoint) s.(tool) s.(color) s.(size) s.(undoStack) s.(redoStack)
    s.(canvas) s.(ctx) s.(brushBtn) s.(eraserBtn) s.(undoBtn_disabled)
    s.(redoBtn_disabled) s.(captured) s.(loading) s.(resizeTimer) l s.(world).

Definition set_world (w : World) (s : State) : State :=
  mkState s.(drawing) s.(lastPoint) s.(tool) s.(color) s.(size) s.(undoStack) s.(redoStack)
    s.(canvas) s.(ctx) s.(brushBtn) s.(eraserBtn) s.(undoBtn_disabled)
    s.(redoBtn_disabled) s.(captured) s.(loading) s.(resizeTimer) s.(exporting) w.

Definition set_bits (b : bitmap) (s : State) : State :=
  set_canvas (mkCanvas s.(canvas).(width) s.(canvas).(height)
                s.(canvas).(style_width) s.(canvas).(style_height) b) s.

Definition set_cur (d : DrawState) (s : State) : State :=
  set_ctx (mkContext d s.(ctx).(saved) s.(ctx).(path)) s.

Definition set_path (p : list PathCmd) (s : State) : State :=
  set_ctx (mkContext s.(ctx).(cur) s.(ctx).(saved) p) s.

(** *** The 2D context, as far as the script calls it *)

Definition with_transform (d : DrawState) t : DrawState :=
  mkDrawState t d.(globalCompositeOperation) d.(strokeStyle) d.(fillStyle)
    d.(lineWidth) d.(lineJoin) d.(lineCap).
Definition with_globalCompositeOperation (d : DrawState) (v : string) : DrawState :=
  mkDrawState d.(transform) v d.(strokeStyle) d.(fillStyle)
    d.(lineWidth) d.(lineJoin) d.(lineCap).
Definition with_strokeStyle (d : DrawState) (v : string) : DrawState :=
  mkDrawState d.(transform) d.(globalCompositeOperation) v d.(fillStyle)
    d.(lineWidth) d.(lineJoin) d.(lineCap).
Definition with_fillStyle (d : DrawState) (v : string) : DrawState :=
  mkDrawState d.(transform) d.(globalCompositeOperation) d.(strokeStyle) v
    d.(lineWidth) d.(lineJoin) d.(lineCap).
Definition with_lineWidth (d : DrawState) (v : JS.number) : DrawState :=
  mkDrawState d.(transform) d.(globalCompositeOperation) d.(strokeStyle) d.(fillStyle)
    v d.(lineJoin) d.(lineCap).
Definition with_lineJoin (d : DrawState) (v : string) : DrawState :=
  mkDrawState d.(transform) d.(globalCompositeOperation) d.(strokeStyle) d.(fillStyle)
    d.(lineWidth) v d.(lineCap).
Definition with_lineCap (d : DrawState) (v : string) : DrawState :=
  mkDrawState d.(transform) d.(globalCompositeOperation) d.(strokeStyle) d.(fillStyle)
    d.(lineWidth) d.(lineJoin) v.

Definition ctx_save (s : State) : State :=
  set_ctx (mkContext s.(ctx).(cur) (s.(ctx).(cur) :: s.(ctx).(saved)) s.(ctx).(path)) s.

Definition ctx_restore (s : State) : State :=
  match s.(ctx).(saved) with
  | [] => s
  | d :: rest => set_ctx (mkContext d rest s.(ctx).(path)) s
  end.

(** [ctx.setTransform(a, b, c, d, e, f)] returns without effect when an
    argument is not finite. *)
Definition ctx_setTransform (a b c d e f : JS.number) (s : State) : State :=
  if forallb PrimFloat.is_finite [a; b; c; d; e; f]
  then set_cur (with_transform s.(ctx).(cur) (a, b, c, d, e, f)) s
  else s.

(** [ctx.lineWidth = v] ignores zero, negative, infinite and NaN values. *)
Definition ctx_set_lineWidth (v : JS.number) (s : State) : State :=
  if PrimFloat.is_finite v && PrimFloat.ltb 0 v
  then set_cur (with_lineWidth s.(ctx).(cur) v) s
  else s.

Definition ctx_fillRect (rx ry rw rh : JS.number) (s : State) : State :=
  set_bits (fillRect s.(ctx).(cur) rx ry rw rh s.(canvas).(bits)) s.

Definition ctx_clearRect (rx ry rw rh : JS.number) (s : State) : State :=
  set_bits (clearRect s.(ctx).(cur) rx ry rw rh s.(canvas).(bits)) s.

Definition ctx_drawImage (img : bitmap) (dx dy dw dh : JS.number) (s : State) : State :=
  set_bits (drawImage s.(ctx).(cur) img dx dy (Some (dw, dh)) s.(canvas).(bits)) s.

Definition ctx_beginPath (s : State) : State := set_path [] s.

Definition ctx_call (c : PathCmd) (s : State) : State :=
  set_path (s.(ctx).(path) ++ [c]) s.

Definition ctx_stroke (s : State) : State :=
  set_bits (stroke s.(ctx).(cur) s.(ctx).(path) s.(canvas).(bits)) s.

(** Assigning [canvas.width] or [canvas.height] replaces the bitmap by a
    transparent one of the new size and resets the context to its default
    state, the current path included. *)
Definition canvas_set_width (v : JS.number) (s : State) : State :=
  let w := JS.reflect_unsigned_long 300 v in
  let c := s.(canvas) in
  set_ctx default_Context
    (set_canvas (mkCanvas w c.(height) c.(style_width) c.(style_height)
                   (blank w c.(height))) s).

Definition canvas_set_height (v : JS.number) (s : State) : State :=
  let h := JS.reflect_unsigned_long 150 v in
  let c := s.(canvas) in
  set_ctx default_Context
    (set_canvas (mkCanvas c.(width) h c.(style_width) c.(style_height)
                   (blank c.(width) h)) s).

Definition canvas_set_style (w h : JS.number) (s : State) : State :=
  let c := s.(canvas) in
  set_canvas (mkCanvas c.(width) c.(height) (Some w) (Some h) c.(bits)) s.

(** [drawImage] with a canvas as its source throws when that canvas has a
    zero width or height. *)
Definition usable (c : Canvas) : bool :=
  negb (c.(width) =? 0) && negb (c.(height) =? 0).

(** ** The script *)

Definition MAX_STEPS : nat := 30.

(** [Math.max(window.devicePixelRatio || 1, 1)] *)
Definition dpr (w : World) : JS.number :=
  JS.Math_max (JS.or_else w.(devicePixelRatio) 1) 1.

Definition fillBackgroundWhite (s : State) : State :=
  let s := ctx_save s in
  let s := set_cur (with_fillStyle s.(ctx).(cur) "#ffffff") s in
  let s := ctx_fillRect 0 0 (JS.of_Z s.(canvas).(width)) (JS.of_Z s.(canvas).(height)) s in
  ctx_restore s.

Definition resizeCanvas (s : State) : Outcome :=
  let rect := s.(world) in
  let dpr := dpr s.(world) in
  let newWidth := JS.Math_round (rect.(rect_width) * dpr) in
  let newHeight := JS.Math_round (rect.(rect_height) * dpr) in
  (* temp.getContext('2d').drawImage(canvas, 0, 0) *)
  if negb (usable s.(canvas)) then Thrown InvalidStateError s
  else
    let temp_width := s.(canvas).(width) in
    let temp_height := s.(canvas).(height) in
    let temp :=
      drawImage default_DrawState s.(canvas).(bits) 0 0 None
        (blank temp_width temp_height) in
    let s := canvas_set_width newWidth s in
    let s := canvas_set_height newHeight s in
    let s := canvas_set_style rect.(rect_width) rect.(rect_height) s in
    let s := ctx_setTransform dpr 0 0 dpr 0 0 s in
    if negb (temp_width =? 0) && negb (temp_height =? 0)
    then Done (ctx_drawImage temp 0 0
                 (JS.of_Z temp_width / dpr) (JS.of_Z temp_height / dpr) s)
    else Done (fillBackgroundWhite s).

Definition setBrush (s : State) : State :=
  let s := set_tool brush s in
  let s := set_toolButtons (mkToolButton true true) (mkToolButton false false) s in
  let s := set_cur (with_globalCompositeOperation s.(ctx).(cur) "source-over") s in
  set_cur (with_strokeStyle s.(ctx).(cur) s.(color)) s.

Definition setEraser (s : State) : State :=
  let s := set_tool eraser s in
  let s := set_toolButtons (mkToolButton false false) (mkToolButton true true) s in
  let s := set_cur (with_globalCompositeOperation s.(ctx).(cur) "destination-out") s in
  set_cur (with_strokeStyle s.(ctx).(cur) "rgba(0,0,0,1)") s.

Definition startDrawing (point : Point) (s : State) : State :=
  let s := set_drawing true s in
  let s := set_lastPoint (Some point) s in
  let s := set_cur (with_lineJoin s.(ctx).(cur) "round") s in
  let s := set_cur (with_lineCap s.(ctx).(cur) "round") s in
  let s := ctx_set_lineWidth s.(size) s in
  let s := match s.(tool) with
           | brush => set_cur (with_strokeStyle s.(ctx).(cur) s.(color)) s
           | eraser => set_cur (with_strokeStyle s.(ctx).(cur) "rgba(0,0,0,1)") s
           end in
  let s := ctx_beginPath s in
  ctx_call (moveTo point.(x) point.(y)) s.

Definition drawTo (point : Point) (s : State) : Outcome :=
  if negb s.(drawing) then Done s
  else match s.(lastPoint) with
       | None => Thrown TypeError s          (* lastPoint.x of null *)
       | Some last =>
           let midX := ((last.(x) + point.(x)) / 2)%float in
           let midY := ((last.(y) + point.(y)) / 2)%float in
           let s := ctx_call (quadraticCurveTo last.(x) last.(y) midX midY) s in
           let s := ctx_stroke s in
           Done (set_lastPoint (Some point) s)
       end.

Definition updateUndoRedoButtons (s : State) : State :=
  set_disabled (Nat.leb (List.length s.(undoStack)) 1)
               (Nat.eqb (List.length s.(redoStack)) 0) s.

(** [Array.prototype.shift], for its effect on the array. *)
Definition shift {A} (l : list A) : list A := tl l.

(** [Array.prototype.pop]: the last element, if any, and what remains. *)
Definition pop {A} (l : list A) : option A * list A :=
  match rev l with
  | [] => (None, [])
  | a :: r => (Some a, rev r)
  end.

Definition pushUndo (s : State) : State :=
  match toDataURL s.(canvas).(bits) "image/png" with
  | Some dataURL =>
      let st := s.(undoStack) ++ [dataURL] in
      let st := if Nat.ltb MAX_STEPS (List.length st) then shift st else st in
      updateUndoRedoButtons (set_undoStack st s)
  | None => s                                (* catch (e) { } *)
  end.

Definition endDrawing (s : State) : State :=
  if negb s.(drawing) then s
  else
    let s := set_drawing false s in
    let s := ctx_call closePath s in
    let s := pushUndo s in
    let s := set_redoStack [] s in
    updateUndoRedoButtons s.

(** [new Image()] with [onload] set and [src] assigned: the load is
    pending until the user agent delivers it. *)
Definition restoreFromDataURL (dataURL : string) (s : State) : State :=
  set_loading (s.(loading) ++ [dataURL]) s.

(** The body of [img.onload] in [restoreFromDataURL]. *)
Definition onload (img : bitmap) (s : State) : State :=
  let w := s.(canvas).(width) in
  let h := s.(canvas).(height) in
  let s := ctx_clearRect 0 0 (JS.of_Z w) (JS.of_Z h) s in
  let s := fillBackgroundWhite s in
  let r := JS.or_else s.(world).(devicePixelRatio) 1 in
  ctx_drawImage img 0 0 (JS.of_Z w / r) (JS.of_Z h / r) s.

Definition undo (s : State) : State :=
  if Nat.leb (List.length s.(undoStack)) 1 then s
  else match pop s.(undoStack) with
       | (Some last, rest) =>
           let s := set_undoStack rest s in
           let s := set_redoStack (s.(redoStack) ++ [last]) s in
           let prev := nth_error s.(undoStack) (List.length s.(undoStack) - 1) in
           let s := match prev with
                    | Some p => if String.eqb p EmptyString then s else restoreFromDataURL p s
                    | None => s
                    end in
           updateUndoRedoButtons s
       | (None, _) => s                      (* excluded by the guard *)
       end.

Definition redo (s : State) : State :=
  if Nat.eqb (List.length s.(redoStack)) 0 then s
  else match pop s.(redoStack) with
       | (Some next, rest) =>
           let s := set_redoStack rest s in
           let s := set_undoStack (s.(undoStack) ++ [next]) s in
           let s := restoreFromDataURL next s in
           updateUndoRedoButtons s
       | (None, _) => s                      (* excluded by the guard *)
       end.

(** *** Events and their listeners *)

Record PointerEvent := mkPointerEvent {
  clientX : JS.number;
  clientY : JS.number;
  pointerId : Z
}.

Record KeyboardEvent := mkKeyboardEvent {
  key : string;
  ctrlKey : bool;
  metaKey : bool;
  shiftKey : bool
}.

(** Get coordinate relative to canvas drawing coordinate system.  The
    function reads the page and hands the state back as it found it. *)
Definition getPoint (ev : PointerEvent) (s : State) : Point * State :=
  let rect := s.(world) in
  let dpr := dpr s.(world) in
  let x := ((ev.(clientX) - rect.(rect_left))
            * (JS.of_Z s.(canvas).(width) / rect.(rect_width)) / dpr)%float in
  let y := ((ev.(clientY) - rect.(rect_top))
            * (JS.of_Z s.(canvas).(height) / rect.(rect_height)) / dpr)%float in
  (mkPoint x y, s).

(** Pointer capture.  The identifiers come from events the user agent
    dispatches, so they name active pointers and the calls do not throw. *)
Definition setPointerCapture (id : Z) (s : State) : State :=
  set_captured (id :: remove Z.eq_dec id s.(captured)) s.

Definition releasePointerCapture (id : Z) (s : State) : State :=
  set_captured (remove Z.eq_dec id s.(captured)) s.

Definition on_pointerdown (ev : PointerEvent) (s : State) : Outcome :=
  let s := setPointerCapture ev.(pointerId) s in
  let '(p, s) := getPoint ev s in
  Done (startDrawing p s).

Definition on_pointermove (ev : PointerEvent) (s : State) : Outcome :=
  if negb s.(drawing) then Done s
  else let '(p, s) := getPoint ev s in drawTo p s.

Definition on_pointerup (ev : PointerEvent) (s : State) : Outcome :=
  if negb s.(drawing) then Done s
  else Done (endDrawing (releasePointerCapture ev.(pointerId) s)).

Definition on_pointercancel (ev : PointerEvent) (s : State) : Outcome :=
  if negb s.(drawing) then Done s
  else Done (endDrawing (releasePointerCapture ev.(pointerId) s)).

Definition on_color_input (value : string) (s : State) : State :=
  let s := set_color value s in
  match s.(tool) with
  | brush => set_cur (with_strokeStyle s.(ctx).(cur) s.(color)) s
  | eraser => s
  end.

Definition on_size_input (value : JS.number) (s : State) : State :=
  let s := set_size value s in
  ctx_set_lineWidth s.(size) s.

Definition on_clear_click (s : State) : State :=
  let s := pushUndo s in
  let s := ctx_clearRect 0 0 (JS.of_Z s.(canvas).(width)) (JS.of_Z s.(canvas).(height)) s in
  let s := fillBackgroundWhite s in
  let s := set_redoStack [] s in
  updateUndoRedoButtons s.

(** The export: a fresh canvas of the backing size is filled white, the
    canvas is drawn on it, and [toBlob] is asked for a PNG, whose callback
    runs later.  [drawImage] throws on a canvas without pixels. *)
Definition on_save_click (s : State) : Outcome :=
  let w := s.(canvas).(width) in
  let h := s.(canvas).(height) in
  let out := blank w h in
  let out := fillRect (with_fillStyle default_DrawState "#ffffff")
               0 0 (JS.of_Z w) (JS.of_Z h) out in
  if negb (usable s.(canvas)) then Thrown InvalidStateError s
  else
    let out := drawImage default_DrawState s.(canvas).(bits) 0 0
                 (Some (JS.of_Z w, JS.of_Z h)) out in
    match toBlob out "image/png" with
    | None => Thrown SecurityError s
    | Some b => Done (set_exporting (s.(exporting) ++ [b]) s)
    end.

(** The callback of the [i]th pending [toBlob]: [URL.createObjectURL]
    throws a [TypeError] on [null]; on a blob the link is added to the
    document, clicked and removed, and the URL revoked, which leaves
    nothing in the state. *)
Definition on_blob (i : nat) (s : State) : Outcome :=
  match nth_error s.(exporting) i with
  | None => Done s
  | Some b =>
      let s := set_exporting (firstn i s.(exporting) ++ skipn (S i) s.(exporting)) s in
      match b with
      | None => Thrown TypeError s
      | Some _ => Done s
      end
  end.

Definition on_keydown (e : KeyboardEvent) (s : State) : State :=
  if String.eqb e.(key) "b" || String.eqb e.(key) "B" then setBrush s
  else if String.eqb e.(key) "e" || String.eqb e.(key) "E" then setEraser s
  else if (e.(ctrlKey) || e.(metaKey)) && String.eqb e.(key) "z" then undo s
  else if (e.(ctrlKey) || e.(metaKey))
          && (String.eqb e.(key) "y" || (e.(shiftKey) && String.eqb e.(key) "Z"))
       then redo s
  else s.

(** [debounce(resizeCanvas, 120)]: a resize event drops the armed timer and
    arms a new one; the timer, when it expires, calls [resizeCanvas]. *)
Definition on_resize (s : State) : State := set_resizeTimer true s.

Definition on_timeout (s : State) : Outcome :=
  if s.(resizeTimer) then resizeCanvas (set_resizeTimer false s) else Done s.

(** The [i]th pending image finishes loading: its [onload] runs when the
    data decodes, nothing runs when it does not. *)
Definition on_load (i : nat) (s : State) : State :=
  match nth_error s.(loading) i with
  | None => s
  | Some dataURL =>
      let s := set_loading (firstn i s.(loading) ++ skipn (S i) s.(loading)) s in
      match decode dataURL with
      | Some img => onload img s
      | None => s
      end
  end.

Inductive Event :=
| pointerdown (ev : PointerEvent)
| pointermove (ev : PointerEvent)
| pointerup (ev : PointerEvent)
| pointercancel (ev : PointerEvent)
| wheel
| color_input (value : string)
| size_input (value : JS.number)
| brush_click
| eraser_click
| clear_click
| save_click
| undo_click
| redo_click
| keydown (e : KeyboardEvent)
| resize                       (* the window's resize event *)
| timeout                      (* the debounce timer expires *)
| load (i : nat)               (* a pending image is delivered *)
| blob (i : nat)               (* a pending [toBlob] callback is run *)
| layout (w : World).          (* the page is laid out anew *)

Definition dispatch (e : Event) (s : State) : Outcome :=
  match e with
  | pointerdown ev => on_pointerdown ev s
  | pointermove ev => on_pointermove ev s
  | pointerup ev => on_pointerup ev s
  | pointercancel ev => on_pointercancel ev s
  | wheel => Done s
  | color_input v => Done (on_color_input v s)
  | size_input v => Done (on_size_input v s)
  | brush_click => Done (setBrush s)
  | eraser_click => Done (setEraser s)
  | clear_click => Done (on_clear_click s)
  | save_click => on_save_click s
  | undo_click => Done (undo s)
  | redo_click => Done (redo s)
  | keydown k => Done (on_keydown k s)
  | resize => Done (on_resize s)
  | timeout => on_timeout s
  | load i => Done (on_load i s)
  | blob i => on_blob i s
  | layout w => Done (set_world w s)
  end.

(** An exception ends the listener that raised it and nothing else: the
    page goes on from the state the listener left. *)
Fixpoint run (es : list Event) (s : State) : State :=
  match es with
  | [] => s
  | e :: es => run es (after (dispatch e s))
  end.

(** *** Start-up *)

(** What the markup and the window provide when the script starts. *)
Record Page := mkPage {
  page_width : Z;              (* the canvas element's width, 300 by default *)
  page_height : Z;             (* and height, 150 by default *)
  page_color : string;         (* colorPicker.value *)
  page_size : JS.number;       (* Number(sizeRange.value) *)
  page_world : World
}.

Definition start (p : Page) : State :=
  {| drawing := false;
     lastPoint := None;
     tool := brush;
     color := p.(page_color);
     size := p.(page_size);
     undoStack := [];
     redoStack := [];
     canvas := mkCanvas p.(page_width) p.(page_height) None None
                 (blank p.(page_width) p.(page_height));
     ctx := default_Context;
     brushBtn := mkToolButton false false;
     eraserBtn := mkToolButton false false;
     undoBtn_disabled := false;
     redoBtn_disabled := false;
     captured := [];
     loading := [];
     resizeTimer := false;
     exporting := [];
     world := p.(page_world) |}.

(** [init].  The listeners it registers are those of [dispatch]; when
    [resizeCanvas] throws, [init] ends there. *)
Definition init (s : State) : Outcome :=
  match resizeCanvas s with
  | Thrown e s => Thrown e s
  | Done s =>
      let s := setBrush s in
      let s := updateUndoRedoButtons s in     (* last statement of attachUI *)
      Done (pushUndo s)                       (* initial state as blank *)
  end.

(** The body of the script: start with white background, then [init()]. *)
Definition script (p : Page) : Outcome :=
  init (fillBackgroundWhite (start p)).

End Script.

(** ** A small user agent

    One instance of [UserAgent], coarse but executable: pixels are either
    clear or inked with one colour (no partial coverage), transforms are
    read as axis-aligned scalings, images are resampled to the nearest
    pixel, a stroke inks the pixel under each vertex of the path, and the
    codec writes a bitmap down pixel by pixel.  It is the page on which the
    statements below are run on concrete inputs. *)

Module Grid.

Inductive Pixel := Clear | Ink (c : string).

Definition bitmap := list (list Pixel).

Definition rows (g : bitmap) : Z := Z.of_nat (List.length g).
Definition cols (g : bitmap) : Z := Z.of_nat (List.length (hd [] g)).

Definition blank (w h : Z) : bitmap :=
  repeat (repeat Clear (Z.to_nat w)) (Z.to_nat h).

Definition composite (op : string) (src dst : Pixel) : Pixel :=
  match src with
  | Clear => dst
  | Ink _ => if String.eqb op "destination-out" then Clear else src
  end.

Fixpoint mapi {A B} (f : Z -> A -> B) (i : Z) (l : list A) : list B :=
  match l with
  | [] => []
  | a :: l => f i a :: mapi f (i + 1) l
  end.

(** [f i j p] is the new value of the pixel [p] in column [i] of row [j]. *)
Definition paint (f : Z -> Z -> Pixel -> Pixel) (g : bitmap) : bitmap :=
  mapi (fun j row => mapi (fun i p => f i j p) 0 row) 0 g.

Definition centre (i : Z) : JS.number := (JS.of_Z i + 0.5)%float.

Definition between (lo len c : JS.number) : bool :=
  PrimFloat.leb lo c && PrimFloat.ltb c (lo + len)%float.

(** The device rectangle of a user-space rectangle. *)
Definition device (d : DrawState) (rx ry rw rh : JS.number) :=
  let '(a, _, _, dd, e, f) := d.(transform) in
  ((a * rx + e)%float, (dd * ry + f)%float, (a * rw)%float, (dd * rh)%float).

Definition fillRect (d : DrawState) (rx ry rw rh : JS.number) (g : bitmap) : bitmap :=
  let '(x0, y0, w, h) := device d rx ry rw rh in
  paint (fun i j p =>
           if between x0 w (centre i) && between y0 h (centre j)
           then composite d.(globalCompositeOperation) (Ink d.(fillStyle)) p
           else p) g.

Definition clearRect (d : DrawState) (rx ry rw rh : JS.number) (g : bitmap) : bitmap :=
  let '(x0, y0, w, h) := device d rx ry rw rh in
  paint (fun i j p =>
           if between x0 w (centre i) && between y0 h (centre j) then Clear else p) g.

Definition sample (img : bitmap) (u v : Z) : Pixel :=
  nth (Z.to_nat u) (nth (Z.to_nat v) img []) Clear.

Definition drawImage (d : DrawState) (img : bitmap) (dx dy : JS.number)
    (dsize : option (JS.number * JS.number)) (g : bitmap) : bitmap :=
  let sw := JS.of_Z (cols img) in
  let sh := JS.of_Z (rows img) in
  let '(dw, dh) := match dsize with Some wh => wh | None => (sw, sh) end in
  let '(x0, y0, w, h) := device d dx dy dw dh in
  paint (fun i j p =>
           if between x0 w (centre i) && between y0 h (centre j)
           then composite d.(globalCompositeOperation)
                  (sample img (JS.trunc ((centre i - x0) / w * sw))
                              (JS.trunc ((centre j - y0) / h * sh))) p
           else p) g.

(** The vertices of a path: where it moves to and where its curves end. *)
Definition vertex (c : PathCmd) : list (JS.number * JS.number) :=
  match c with
  | moveTo px py => [(px, py)]
  | quadraticCurveTo _ _ px py => [(px, py)]
  | closePath => []
  end.

Definition stroke (d : DrawState) (p : list PathCmd) (g : bitmap) : bitmap :=
  fold_left
    (fun g '(px, py) =>
       if PrimFloat.is_finite px && PrimFloat.is_finite py
       then let '(vx, vy, _, _) := device d px py 0 0 in
            paint (fun i j q =>
                     if (i =? JS.trunc vx) && (j =? JS.trunc vy)
                     then composite d.(globalCompositeOperation) (Ink d.(strokeStyle)) q
                     else q) g
       else g)
    (flat_map vertex p) g.

(** The codec: each pixel is its colour (nothing for a clear one)
    followed by [;], each row is closed by [/]. *)
Definition print_pixel (p : Pixel) : string :=
  match p with
  | Clear => ";"%string
  | Ink c => (c ++ ";")%string
  end.

Definition print_row (r : list Pixel) : string :=
  (String.concat EmptyString (map print_pixel r) ++ "/")%string.

Definition toDataURL (g : bitmap) (type : string) : option string :=
  if (rows g =? 0) || (cols g =? 0) then Some "data:,"%string
  else Some ("data:" ++ String.concat EmptyString (map print_row g))%string.

Fixpoint parse (s : string) (tok : string) (row : list Pixel) (g : bitmap) : bitmap :=
  match s with
  | EmptyString => g
  | String c s =>
      if Ascii.eqb c ";"%char
      then parse s EmptyString
       (row ++ [if String.eqb tok EmptyString then Clear else Ink tok]) g
      else if Ascii.eqb c "/"%char then parse s EmptyString [] (g ++ [row])
      else parse s (tok ++ String c EmptyString)%string row g
  end.

Definition decode (s : string) : option bitmap :=
  if String.prefix "data:" s
  then match parse (String.substring 5 (String.length s - 5) s) EmptyString [] [] with
       | [] => None
       | g => Some g
       end
  else None.

End Grid.

#[export] Instance GridAgent : UserAgent Grid.bitmap :=
  {| blank := Grid.blank;
     fillRect := Grid.fillRect;
     clearRect := Grid.clearRect;
     drawImage := Grid.drawImage;
     stroke := Grid.stroke;
     toDataURL := Grid.toDataURL;
     toBlob := fun g type => Some (Grid.toDataURL g type);
     decode := Grid.decode |}.

(** A page of four by two pixels, shown at its own size on a display of
    density one. *)
Definition small_world : World :=
  {| rect_left := 0; rect_top := 0; rect_width := 4; rect_height := 2;
     devicePixelRatio := 1 |}.

Definition small_page : Page :=
  {| page_width := 4; page_height := 2; page_color := "#ff0000";
     page_size := 1; page_world := small_world |}.

Definition at_ (cx cy : JS.number) : PointerEvent :=
  {| clientX := cx; clientY := cy; pointerId := 1 |}.

(** ** Gestures, traces and the vocabulary of the statements *)

Section Vocabulary.

Context {bitmap : Type} {UA : UserAgent bitmap}.
Local Abbreviation State := (@State bitmap).

(** One entry appended under the cap: past [MAX_STEPS] entries the one at
    index 0 goes. *)
Definition capped (st : list string) (d : string) : list string :=
  if Nat.ltb MAX_STEPS (List.length (st ++ [d])) then tl (st ++ [d])
  else st ++ [d].

(** A completed gesture: the pointer goes down, moves any number of times
    and is lifted or cancelled. *)
Record Gesture := mkGesture {
  g_down : PointerEvent;
  g_moves : list PointerEvent;
  g_cancelled : bool;
  g_end : PointerEvent
}.

Definition events_of (g : Gesture) : list Event :=
  pointerdown g.(g_down)
  :: map pointermove g.(g_moves)
  ++ [if g.(g_cancelled) then pointercancel g.(g_end) else pointerup g.(g_end)].

Definition perform (gs : list Gesture) (s : State) : State :=
  run (flat_map events_of gs) s.

(** The events that can reach a gesture in progress without ending it. *)
Definition stroke_event (e : Event) : Prop :=
  match e with
  | pointerdown _ | pointermove _ => True
  | _ => False
  end.

(** The events that end a gesture in progress. *)
Definition ending_event (e : Event) : Prop :=
  match e with
  | pointerup _ | pointercancel _ => True
  | _ => False
  end.

(** The operations on the history a user can ask for: undo, redo and
    clear, from their buttons or from the keyboard. *)
Definition history_op (e : Event) : bool :=
  match e with
  | undo_click | redo_click | clear_click => true
  | keydown k =>
      if String.eqb k.(key) "b" || String.eqb k.(key) "B" then false
      else if String.eqb k.(key) "e" || String.eqb k.(key) "E" then false
      else if (k.(ctrlKey) || k.(metaKey)) && String.eqb k.(key) "z" then true
      else (k.(ctrlKey) || k.(metaKey))
           && (String.eqb k.(key) "y" || (k.(shiftKey) && String.eqb k.(key) "Z"))
  | _ => false
  end.

(** The gestures a trace completes: a gesture is completed by a
    [pointerup] or [pointercancel] that arrives while the pointer is down.
    [active] tells whether the pointer is down when the trace begins. *)
Fixpoint completed (active : bool) (es : list Event) : nat :=
  match es with
  | [] => 0
  | pointerdown _ :: es => completed true es
  | pointerup _ :: es | pointercancel _ :: es =>
      if active then S (completed false es) else completed false es
  | _ :: es => completed active es
  end.

(** Only the pointer listeners touch [drawing] and [lastPoint]. *)
Definition pointer_event (e : Event) : bool :=
  match e with
  | pointerdown _ | pointermove _ | pointerup _ | pointercancel _ => true
  | _ => false
  end.

(** While a gesture is in progress there is a last point. *)
Definition gesture_ok (s : State) : Prop :=
  drawing s = true -> lastPoint s <> None.

(** The display size is zero in a dimension. *)
Definition zero_display (w : World) : Prop :=
  PrimFloat.is_zero (rect_width w) = true
  \/ PrimFloat.is_zero (rect_height w) = true.

(** A resize that changes neither the backing size nor the bitmap. *)
Definition keeps_raster (s s' : State) : Prop :=
  width (canvas s') = width (canvas s)
  /\ height (canvas s') = height (canvas s)
  /\ bits (canvas s') = bits (canvas s).

(** The states the page can be in: those the script starts in and those
    an event leads to. *)
Inductive reachable (p : Page) : State -> Prop :=
| reach_script s : script p = Done s -> reachable p s
| reach_event e s : reachable p s -> reachable p (after (dispatch e s)).

(** [undo()], then [redo()], then the two restores they started are
    delivered, the older first. *)
Definition round_trip (s : State) : State :=
  let k := List.length (loading s) in
  run [undo_click; redo_click; load k; load k] s.

(** [undo()], then [redo()], then the two restores are delivered the
    newer first. *)
Definition race (s : State) : State :=
  let k := List.length (loading s) in
  run [undo_click; redo_click; load (S k); load k] s.

(** C2 as the specification words it: on an undo list of at least two
    entries the round trip gives back the bitmap and both lists. *)
Definition round_trip_restores (s : State) : Prop :=
  (2 <= List.length (undoStack s))%nat ->
  bits (canvas (round_trip s)) = bits (canvas s)
  /\ undoStack (round_trip s) = undoStack s
  /\ redoStack (round_trip s) = redoStack s.

(** C7 as the specification words it: the element-local position, scaled
    by backing over displayed size, is divided by the device's pixel
    density, and nothing else happens. *)
Definition specified_point (ev : PointerEvent) (s : State) : Point :=
  {| x := (clientX ev - rect_left (world s))
          * (JS.of_Z (width (canvas s)) / rect_width (world s))
          / devicePixelRatio (world s);
     y := (clientY ev - rect_top (world s))
          * (JS.of_Z (height (canvas s)) / rect_height (world s))
          / devicePixelRatio (world s) |}.

Definition getPoint_as_specified (s : State) : Prop :=
  forall ev, getPoint ev s = (specified_point ev s, s).

(** C4 as the specification words it: with a display size of zero the
    resize returns normally and keeps the backing size and the bitmap. *)
Definition zero_resize_is_noop (s : State) : Prop :=
  zero_display (world s) ->
  raised (resizeCanvas s) = false
  /\ keeps_raster s (after (resizeCanvas s)).

(** C5 as the specification words it: after a clear the newest undo entry
    is the capture of the cleared surface. *)
Definition clear_is_captured (s : State) : Prop :=
  last (map Some (undoStack (on_clear_click s))) None
  = toDataURL (bits (canvas (on_clear_click s))) "image/png".

(** *** Vocabulary of the further properties *)

(** The two history buttons show what the lists allow. *)
Definition buttons_ok (s : State) : Prop :=
  undoBtn_disabled s = Nat.leb (List.length (undoStack s)) 1
  /\ redoBtn_disabled s = Nat.eqb (List.length (redoStack s)) 0.

(** The tool buttons show the tool. *)
Definition tool_shown (s : State) : Prop :=
  match tool s with
  | brush => brushBtn s = mkToolButton true true
             /\ eraserBtn s = mkToolButton false false
  | eraser => brushBtn s = mkToolButton false false
              /\ eraserBtn s = mkToolButton true true
  end.

(** The snapshots the history holds, oldest first: the undo list, then the
    redo list from its end. *)
Definition timeline (s : State) : list string :=
  undoStack s ++ rev (redoStack s).

(** What an event can do to the history. *)
Inductive history_step (s s' : State) : Prop :=
| step_none :
    undoStack s' = undoStack s -> redoStack s' = redoStack s ->
    history_step s s'
| step_undo last :
    undoStack s = undoStack s' ++ [last] ->
    redoStack s' = redoStack s ++ [last] ->
    undoStack s' <> [] ->
    history_step s s'
| step_redo next :
    redoStack s = redoStack s' ++ [next] ->
    undoStack s' = undoStack s ++ [next] ->
    history_step s s'
| step_capture :
    redoStack s' = [] ->
    undoStack s' = undoStack s
    \/ (exists d, undoStack s' = capped (undoStack s) d) ->
    history_step s s'.

(** The context between two listeners: nothing saved, and a line width
    the canvas accepts. *)
Definition context_tidy (s : State) : Prop :=
  saved (ctx s) = []
  /\ PrimFloat.is_finite (lineWidth (cur (ctx s)))
     && PrimFloat.ltb 0 (lineWidth (cur (ctx s))) = true.

(** The curves [drawTo] adds for the points of a gesture, [last] being
    the point before the first of them. *)
Fixpoint smooth (last : Point) (pts : list Point) : list PathCmd :=
  match pts with
  | [] => []
  | p :: pts =>
      quadraticCurveTo (x last) (y last)
        ((x last + x p) / 2) ((y last + y p) / 2)
      :: smooth p pts
  end.

(** The bitmap after the calls [cmds] have been added to [path] one by
    one, the path being stroked after each. *)
Fixpoint strokes (d : DrawState) (path cmds : list PathCmd) (b : bitmap)
    : bitmap :=
  match cmds with
  | [] => b
  | c :: cmds => strokes d (path ++ [c]) cmds (stroke d (path ++ [c]) b)
  end.

End Vocabulary.

(** ** Sample runs on the small page *)

Definition s_init : @State Grid.bitmap := after (script small_page).

(** A stroke from (0.5, 0.5) to (2.5, 1.5), and one from (3.5, 0.5) to
    (3.5, 1.5) that ends in a cancel. *)
Definition stroke1 : Gesture :=
  {| g_down := at_ 0.5 0.5; g_moves := [at_ 2.5 1.5];
     g_cancelled := false; g_end := at_ 2.5 1.5 |}.

Definition stroke2 : Gesture :=
  {| g_down := at_ 3.5 0.5; g_moves := [at_ 3.5 1.5];
     g_cancelled := true; g_end := at_ 3.5 1.5 |}.

(** Two strokes, with a resize, a change of colour and a change of tool
    in between and a stray [pointermove] after the first. *)
Definition busy_trace : list Event :=
  events_of stroke1
  ++ [pointermove (at_ 1.5 1.5); resize; timeout; color_input "#00ff00";
      eraser_click]
  ++ events_of stroke2.

(** One stroke drawn. *)
Definition s_stroke : @State Grid.bitmap := perform [stroke1] s_init.

(** The pointer is down and the gesture in progress. *)
Definition s_down : @State Grid.bitmap :=
  after (dispatch (pointerdown (at_ 0.5 0.5)) s_init).

(** One stroke drawn and undone, and the pointer down again: the redo list
    holds an entry and a gesture is in progress. *)
Definition s_redoable : @State Grid.bitmap :=
  after (dispatch (pointerdown (at_ 3.5 0.5)) (undo s_stroke)).

(** One stroke drawn and a second one under way: the pointer went down
    and moved, and the curve it drew is on the canvas. *)
Definition s_mid : @State Grid.bitmap :=
  run [pointerdown (at_ 3.5 0.5); pointermove (at_ 3.5 1.5)] s_stroke.

(** One stroke drawn, then the clear button. *)
Definition s_clear : @State Grid.bitmap :=
  after (dispatch clear_click s_stroke).

(** One stroke drawn, then the canvas is laid out with no width. *)
Definition zero_world : World :=
  {| rect_left := 0; rect_top := 0; rect_width := 0; rect_height := 2;
     devicePixelRatio := 1 |}.

Definition s_zero : @State Grid.bitmap :=
  after (dispatch (layout zero_world) s_stroke).

(** One stroke drawn, then the canvas is laid out with no height. *)
Definition flat_world : World :=
  {| rect_left := 0; rect_top := 0; rect_width := 4; rect_height := 0;
     devicePixelRatio := 2 |}.

Definition s_flat : @State Grid.bitmap :=
  after (dispatch (layout flat_world) s_stroke).

(** A user agent on which [toDataURL] throws, as it does on a canvas that
    is not origin-clean, and the start of a gesture there. *)
Definition TaintedAgent : UserAgent Grid.bitmap :=
  {| blank := Grid.blank;
     fillRect := Grid.fillRect;
     clearRect := Grid.clearRect;
     drawImage := Grid.drawImage;
     stroke := Grid.stroke;
     toDataURL := fun _ _ => None;
     toBlob := fun _ _ => None;
     decode := Grid.decode |}.

Definition s_tainted : @State Grid.bitmap :=
  @run _ TaintedAgent [pointerdown (at_ 0.5 0.5); pointermove (at_ 2.5 1.5)]
    (after (@script _ TaintedAgent small_page)).

(** A user agent whose encoder gives up: the [toBlob] callback is handed
    [null].  The page started there. *)
Definition NullBlobAgent : UserAgent Grid.bitmap :=
  {| blank := Grid.blank;
     fillRect := Grid.fillRect;
     clearRect := Grid.clearRect;
     drawImage := Grid.drawImage;
     stroke := Grid.stroke;
     toDataURL := Grid.toDataURL;
     toBlob := fun _ _ => Some None;
     decode := Grid.decode |}.

Definition s_null_start : @State Grid.bitmap :=
  after (@script _ NullBlobAgent small_page).

(** One stroke with the brush, then the eraser is chosen and a second
    gesture erases along the right edge: an eraser gesture just completed. *)
Definition erase_trace : list Event :=
  events_of stroke1 ++ eraser_click :: events_of stroke2.

Definition s_erased : @State Grid.bitmap := run erase_trace s_init.

(** The small page on a display of density one half (a page zoomed out),
    and one stroke drawn there. *)
Definition half_world : World :=
  {| rect_left := 0; rect_top := 0; rect_width := 4; rect_height := 2;
     devicePixelRatio := 0.5 |}.

Definition half_page : Page :=
  {| page_width := 4; page_height := 2; page_color := "#ff0000";
     page_size := 1; page_world := half_world |}.

Definition s_half : @State Grid.bitmap := after (script half_page).

Definition s_half_stroke : @State Grid.bitmap := perform [stroke1] s_half.

(** The eraser selected after one stroke. *)
Definition s_eraser : @State Grid.bitmap :=
  after (dispatch eraser_click s_stroke).

(** One stroke, then the canvas is laid out with no width and resized: it
    has no pixel. *)
Definition shrink_trace : list Event :=
  events_of stroke1 ++ [layout zero_world; resize; timeout].

Definition s_empty : @State Grid.bitmap := run shrink_trace s_init.

(** The pointer goes down and up without moving. *)
Definition tap : Gesture :=
  {| g_down := at_ 1.5 0.5; g_moves := [];
     g_cancelled := false; g_end := at_ 1.5 0.5 |}.

(** A page whose canvas element has no width. *)
Definition empty_page : Page :=
  {| page_width := 0; page_height := 2; page_color := "#ff0000";
     page_size := 1; page_world := small_world |}.

(** ** Properties of the history *)

(** Reduces the projections of updated records and nothing else. *)
Ltac fields :=
  cbn [drawing lastPoint tool color size undoStack redoStack canvas ctx
       brushBtn eraserBtn undoBtn_disabled redoBtn_disabled captured loading
       resizeTimer exporting world
       set_drawing set_lastPoint set_tool set_color set_size set_undoStack
       set_redoStack set_canvas set_ctx set_toolButtons set_disabled
       set_captured set_loading set_resizeTimer set_exporting set_world set_bits set_cur
       set_path width height style_width style_height bits cur saved path
       after fst snd negb].

(** Splits the conditional the goal is stuck on, innermost first. *)
Ltac case_split :=
  match goal with
  | |- context [if ?b then _ else _] =>
      lazymatch b with
      | context [if _ then _ else _] => fail
      | context [match _ with _ => _ end] => fail
      | _ => destruct b eqn:?
      end
  | |- context [match ?t with _ => _ end] =>
      lazymatch t with
      | context [if _ then _ else _] => fail
      | context [match _ with _ => _ end] => fail
      | _ => destruct t eqn:?
      end
  end.

Ltac split_cases := repeat (fields; case_split).

(** Unfolds a listener down to the setters. *)
Ltac listeners :=
  cbn [dispatch];
  unfold on_pointerdown, on_pointermove, on_pointerup, on_pointercancel,
    on_color_input, on_size_input, on_clear_click, on_save_click, on_keydown,
    on_resize, on_timeout, on_load, on_blob, getPoint, drawTo, endDrawing, pushUndo,
    undo, redo, resizeCanvas, startDrawing, ctx_set_lineWidth,
    ctx_setTransform, setBrush, setEraser, updateUndoRedoButtons, onload,
    fillBackgroundWhite, restoreFromDataURL, setPointerCapture,
    releasePointerCapture, canvas_set_style, canvas_set_height,
    canvas_set_width, ctx_call, ctx_beginPath, ctx_stroke, ctx_fillRect,
    ctx_clearRect, ctx_drawImage, ctx_restore, ctx_save.

Section History.

Context {bitmap : Type} {UA : UserAgent bitmap}.
Local Abbreviation State := (@State bitmap).

Lemma pop_snoc {A} (l : list A) (a : A) : pop (l ++ [a]) = (Some a, l).
Proof.
  unfold pop. rewrite rev_app_distr. cbn [rev app]. now rewrite rev_involutive.
Qed.

Lemma pop_nonempty {A} (l : list A) :
  l <> [] -> exists a r, l = r ++ [a] /\ pop l = (Some a, r).
Proof.
  intros Hl. destruct (exists_last Hl) as (r & a & ->).
  exists a, r. split; [reflexivity | apply pop_snoc].
Qed.

Lemma undo_idle (s : State) :
  (List.length (undoStack s) <= 1)%nat -> undo s = s.
Proof.
  intros H. unfold undo.
  destruct (Nat.leb_spec (List.length (undoStack s)) 1) as [_ | Hgt]; [reflexivity | lia].
Qed.

Lemma redo_idle (s : State) : redoStack s = [] -> redo s = s.
Proof.
  intros H. unfold redo. now rewrite H.
Qed.

Lemma undo_moves_one (s : State) :
  (1 < List.length (undoStack s))%nat ->
  exists last rest,
    undoStack s = rest ++ [last]
    /\ undoStack (undo s) = rest
    /\ redoStack (undo s) = redoStack s ++ [last]
    /\ canvas (undo s) = canvas s
    /\ loading (undo s)
       = loading s ++ match nth_error rest (List.length rest - 1) with
                      | Some p => if String.eqb p EmptyString then [] else [p]
                      | None => []
                      end.
Proof.
  intros H. unfold undo.
  destruct (Nat.leb_spec (List.length (undoStack s)) 1) as [Hle | _]; [lia |].
  destruct (pop_nonempty (undoStack s)) as (last & rest & Hl & Hp).
  { intros E. rewrite E in H. cbn [List.length] in H. lia. }
  rewrite Hp. exists last, rest. split; [exact Hl |]. fields.
  destruct (nth_error rest (List.length rest - 1)) as [p |];
    [destruct (String.eqb p EmptyString) |];
    rewrite ?app_nil_r; repeat split; reflexivity.
Qed.

Lemma redo_moves_one (s : State) :
  redoStack s <> [] ->
  exists next rest,
    redoStack s = rest ++ [next]
    /\ redoStack (redo s) = rest
    /\ undoStack (redo s) = undoStack s ++ [next]
    /\ canvas (redo s) = canvas s
    /\ loading (redo s) = loading s ++ [next].
Proof.
  intros H. unfold redo.
  destruct (pop_nonempty (redoStack s) H) as (next & rest & Hl & Hp).
  destruct (Nat.eqb_spec (List.length (redoStack s)) 0) as [E | _].
  { destruct (redoStack s); [congruence | discriminate]. }
  rewrite Hp. exists next, rest. split; [exact Hl |]. repeat split; reflexivity.
Qed.

(** C6. [undo()] on an undo list of at most one entry and [redo()] on an
    empty redo list return normally and leave the whole state, the surface
    and both history lists with it, as it was. *)
Theorem underflow_is_noop (s : State) :
  ((List.length (undoStack s) <= 1)%nat ->
     undo s = s /\ dispatch undo_click s = Done s)
  /\ (redoStack s = [] ->
     redo s = s /\ dispatch redo_click s = Done s).
Proof.
  split; intros H; cbn [dispatch].
  - rewrite undo_idle by exact H. now split.
  - rewrite redo_idle by exact H. now split.
Qed.

(** C10. An [undo()] on more than one entry moves the last entry of the undo
    list to the end of the redo list, a [redo()] on a non-empty redo list
    moves the last entry of the redo list to the end of the undo list; either
    way the two lists together hold as many entries as before. *)
Theorem undo_redo_transfer_one (s : State) :
  ((1 < List.length (undoStack s))%nat ->
     (exists e, undoStack s = undoStack (undo s) ++ [e]
                /\ redoStack (undo s) = redoStack s ++ [e])
     /\ (List.length (undoStack (undo s)) + List.length (redoStack (undo s))
         = List.length (undoStack s) + List.length (redoStack s))%nat)
  /\ (redoStack s <> [] ->
     (exists e, redoStack s = redoStack (redo s) ++ [e]
                /\ undoStack (redo s) = undoStack s ++ [e])
     /\ (List.length (undoStack (redo s)) + List.length (redoStack (redo s))
         = List.length (undoStack s) + List.length (redoStack s))%nat).
Proof.
  split; intros H.
  - destruct (undo_moves_one s H) as (e & rest & Hu & Hu' & Hr' & _).
    split.
    + exists e. now rewrite Hu', Hr'.
    + rewrite Hu', Hr', Hu, !length_app. cbn [List.length]. lia.
  - destruct (redo_moves_one s H) as (e & rest & Hr & Hr' & Hu' & _).
    split.
    + exists e. now rewrite Hr', Hu'.
    + rewrite Hr', Hu', Hr, !length_app. cbn [List.length]. lia.
Qed.

End History.

(** ** Properties of a gesture *)

Section Gestures.

Context {bitmap : Type} {UA : UserAgent bitmap}.
Local Abbreviation State := (@State bitmap).

Lemma run_app (es1 es2 : list Event) (s : State) :
  run (es1 ++ es2) s = run es2 (run es1 s).
Proof.
  revert s. induction es1 as [| e es1 IH]; intros s; [reflexivity | apply IH].
Qed.

Lemma pushUndo_undoStack (s : State) :
  undoStack (pushUndo s)
  = match toDataURL (bits (canvas s)) "image/png" with
    | Some d => capped (undoStack s) d
    | None => undoStack s
    end.
Proof.
  unfold pushUndo, capped, shift.
  destruct (toDataURL (bits (canvas s)) "image/png"); reflexivity.
Qed.

Lemma pushUndo_frame (s : State) :
  redoStack (pushUndo s) = redoStack s
  /\ canvas (pushUndo s) = canvas s
  /\ ctx (pushUndo s) = ctx s
  /\ drawing (pushUndo s) = drawing s
  /\ lastPoint (pushUndo s) = lastPoint s
  /\ world (pushUndo s) = world s
  /\ loading (pushUndo s) = loading s.
Proof.
  unfold pushUndo.
  destruct (toDataURL (bits (canvas s)) "image/png"); repeat split; reflexivity.
Qed.

Lemma startDrawing_spec (p : Point) (s : State) :
  drawing (startDrawing p s) = true
  /\ lastPoint (startDrawing p s) = Some p
  /\ path (ctx (startDrawing p s)) = [moveTo (x p) (y p)]
  /\ undoStack (startDrawing p s) = undoStack s
  /\ redoStack (startDrawing p s) = redoStack s
  /\ canvas (startDrawing p s) = canvas s.
Proof.
  unfold startDrawing, ctx_set_lineWidth. split_cases; repeat split; reflexivity.
Qed.

Lemma on_pointerdown_eq (ev : PointerEvent) (s : State) :
  on_pointerdown ev s
  = Done (startDrawing (fst (getPoint ev s)) (setPointerCapture (pointerId ev) s)).
Proof. reflexivity. Qed.

Lemma on_pointermove_idle (ev : PointerEvent) (s : State) :
  drawing s = false -> on_pointermove ev s = Done s.
Proof.
  intros Hd. unfold on_pointermove. now rewrite Hd.
Qed.

Lemma on_pointermove_active (ev : PointerEvent) (last : Point) (s : State) :
  drawing s = true -> lastPoint s = Some last ->
  on_pointermove ev s
  = Done (set_lastPoint (Some (fst (getPoint ev s)))
            (ctx_stroke
               (ctx_call
                  (quadraticCurveTo (x last) (y last)
                     ((x last + x (fst (getPoint ev s))) / 2)
                     ((y last + y (fst (getPoint ev s))) / 2)) s))).
Proof.
  intros Hd Hl. unfold on_pointermove, drawTo, getPoint. fields.
  now rewrite Hd, Hl.
Qed.

Lemma endDrawing_active (s : State) :
  drawing s = true ->
  endDrawing s
  = updateUndoRedoButtons
      (set_redoStack [] (pushUndo (ctx_call closePath (set_drawing false s)))).
Proof.
  intros Hd. unfold endDrawing. now rewrite Hd.
Qed.

Lemma endDrawing_spec (s : State) :
  drawing s = true ->
  drawing (endDrawing s) = false
  /\ canvas (endDrawing s) = canvas s
  /\ undoStack (endDrawing s)
     = match toDataURL (bits (canvas s)) "image/png" with
       | Some d => capped (undoStack s) d
       | None => undoStack s
       end
  /\ redoStack (endDrawing s) = [].
Proof.
  intros Hd. rewrite endDrawing_active by exact Hd.
  set (s1 := ctx_call closePath (set_drawing false s)).
  destruct (pushUndo_frame s1) as (_ & Hc & _ & Hdr & _).
  pose proof (pushUndo_undoStack s1) as Hu.
  unfold updateUndoRedoButtons. fields.
  rewrite Hc, Hdr, Hu. repeat split; reflexivity.
Qed.

Lemma ending_event_eq (e : Event) (s : State) :
  ending_event e -> drawing s = true ->
  exists id, dispatch e s = Done (endDrawing (releasePointerCapture id s)).
Proof.
  intros He Hd. destruct e; try contradiction; cbn [dispatch];
    [unfold on_pointerup | unfold on_pointercancel];
    rewrite Hd; exists (pointerId ev); reflexivity.
Qed.

(** C3. A [pointerup] or a [pointercancel] that ends a gesture in progress
    leaves the redo list empty, whatever it held. *)
Theorem gesture_end_empties_redo (s : State) (ev : PointerEvent) :
  drawing s = true ->
  redoStack (after (dispatch (pointerup ev) s)) = []
  /\ redoStack (after (dispatch (pointercancel ev) s)) = [].
Proof.
  intros Hd.
  destruct (ending_event_eq (pointerup ev) s I Hd) as [i ->].
  destruct (ending_event_eq (pointercancel ev) s I Hd) as [j ->].
  cbn [after].
  split; now apply endDrawing_spec.
Qed.

Lemma resizeCanvas_frame (s : State) :
  drawing (after (resizeCanvas s)) = drawing s
  /\ lastPoint (after (resizeCanvas s)) = lastPoint s
  /\ undoStack (after (resizeCanvas s)) = undoStack s
  /\ redoStack (after (resizeCanvas s)) = redoStack s.
Proof.
  unfold resizeCanvas, ctx_setTransform. split_cases; repeat split; reflexivity.
Qed.

Lemma undo_gesture (s : State) :
  drawing (undo s) = drawing s /\ lastPoint (undo s) = lastPoint s.
Proof.
  unfold undo. split_cases; split; reflexivity.
Qed.

Lemma redo_gesture (s : State) :
  drawing (redo s) = drawing s /\ lastPoint (redo s) = lastPoint s.
Proof.
  unfold redo. split_cases; split; reflexivity.
Qed.

Lemma other_events_keep_gesture (e : Event) (s : State) :
  pointer_event e = false ->
  drawing (after (dispatch e s)) = drawing s
  /\ lastPoint (after (dispatch e s)) = lastPoint s.
Proof.
  destruct e; try discriminate; intros _; cbn [dispatch after];
    try (split; reflexivity).
  - unfold on_color_input. split_cases; split; reflexivity.
  - unfold on_size_input, ctx_set_lineWidth. split_cases; split; reflexivity.
  - unfold on_clear_click.
    destruct (pushUndo_frame s) as (_ & _ & _ & Hd & Hl & _).
    fields. rewrite <- Hd, <- Hl. split; reflexivity.
  - unfold on_save_click. split_cases; split; reflexivity.
  - apply undo_gesture.
  - apply redo_gesture.
  - unfold on_keydown.
    repeat match goal with
           | |- context [if ?b then _ else _] => destruct b
           end;
      first [apply undo_gesture | apply redo_gesture | split; reflexivity].
  - unfold on_timeout. destruct (resizeTimer s); [| split; reflexivity].
    destruct (resizeCanvas_frame (set_resizeTimer false s)) as (Hd & Hl & _).
    split; assumption.
  - unfold on_load. split_cases; split; reflexivity.
  - unfold on_blob. split_cases; split; reflexivity.
Qed.

Lemma script_idle (p : Page) (s : State) :
  script p = Done s -> drawing s = false.
Proof.
  unfold script, init. intros H.
  destruct (resizeCanvas_frame (fillBackgroundWhite (start p))) as [Hd _].
  destruct (resizeCanvas (fillBackgroundWhite (start p))) as [s1 | e s1];
    [| discriminate].
  injection H as <-.
  destruct (pushUndo_frame (updateUndoRedoButtons (setBrush s1))) as (_ & _ & _ & -> & _).
  exact Hd.
Qed.

Lemma dispatch_gesture_ok (e : Event) (s : State) :
  gesture_ok s -> gesture_ok (after (dispatch e s)).
Proof.
  unfold gesture_ok. intros Hs.
  destruct (pointer_event e) eqn:He.
  - destruct (drawing s) eqn:Hd.
    + destruct e; try discriminate; cbn [dispatch].
      * rewrite on_pointerdown_eq. cbn [after]. intros _.
        destruct (startDrawing_spec (fst (getPoint ev s))
                    (setPointerCapture (pointerId ev) s)) as (_ & -> & _).
        discriminate.
      * destruct (lastPoint s) as [last |] eqn:Hl; [| now destruct Hs].
        rewrite (on_pointermove_active ev last) by assumption.
        intros _. discriminate.
      * destruct (ending_event_eq (pointerup ev) s I Hd) as [i E].
        cbn [dispatch] in E. rewrite E. cbn [after].
        destruct (endDrawing_spec (releasePointerCapture i s) Hd) as (-> & _).
        discriminate.
      * destruct (ending_event_eq (pointercancel ev) s I Hd) as [i E].
        cbn [dispatch] in E. rewrite E. cbn [after].
        destruct (endDrawing_spec (releasePointerCapture i s) Hd) as (-> & _).
        discriminate.
    + destruct e; try discriminate; cbn [dispatch].
      * rewrite on_pointerdown_eq. cbn [after]. intros _.
        destruct (startDrawing_spec (fst (getPoint ev s))
                    (setPointerCapture (pointerId ev) s)) as (_ & -> & _).
        discriminate.
      * rewrite on_pointermove_idle by exact Hd. cbn [after]. congruence.
      * unfold on_pointerup. rewrite Hd. cbn [negb after]. congruence.
      * unfold on_pointercancel. rewrite Hd. cbn [negb after]. congruence.
  - destruct (other_events_keep_gesture e s He) as [-> ->]. exact Hs.
Qed.

Lemma reachable_gesture_ok (p : Page) (s : State) :
  reachable p s -> gesture_ok s.
Proof.
  induction 1 as [s H | e s _ IH].
  - intros Hd. rewrite (script_idle p s H) in Hd. discriminate.
  - now apply dispatch_gesture_ok.
Qed.

Lemma script_history (p : Page) (s : State) :
  script p = Done s ->
  undoStack s = match toDataURL (bits (canvas s)) "image/png" with
                | Some d => [d]
                | None => []
                end
  /\ redoStack s = [].
Proof.
  unfold script, init. intros H.
  destruct (resizeCanvas_frame (fillBackgroundWhite (start p))) as (_ & _ & Hu & Hr).
  destruct (resizeCanvas (fillBackgroundWhite (start p))) as [s1 | e s1];
    [| discriminate].
  injection H as <-. cbn [after] in Hu, Hr.
  set (s2 := updateUndoRedoButtons (setBrush s1)).
  assert (Hu2 : undoStack s2 = []) by exact Hu.
  assert (Hr2 : redoStack s2 = []) by exact Hr.
  rewrite pushUndo_undoStack.
  destruct (pushUndo_frame s2) as (-> & -> & _).
  rewrite Hu2, Hr2. split; [| reflexivity].
  destruct (toDataURL (bits (canvas s2)) "image/png"); reflexivity.
Qed.

Lemma pointerdown_spec (ev : PointerEvent) (s : State) :
  exists s',
    dispatch (pointerdown ev) s = Done s'
    /\ drawing s' = true
    /\ lastPoint s' = Some (fst (getPoint ev s))
    /\ path (ctx s') = [moveTo (x (fst (getPoint ev s))) (y (fst (getPoint ev s)))]
    /\ canvas s' = canvas s
    /\ undoStack s' = undoStack s
    /\ redoStack s' = redoStack s.
Proof.
  eexists. split; [cbn [dispatch]; apply on_pointerdown_eq |].
  destruct (startDrawing_spec (fst (getPoint ev s))
              (setPointerCapture (pointerId ev) s))
    as (H1 & H2 & H3 & H4 & H5 & H6).
  repeat split; assumption.
Qed.

(** Further [pointerdown] and [pointermove] events leave a gesture in
    progress and the history alone. *)
Lemma stroke_event_keeps (e : Event) (s : State) :
  stroke_event e -> drawing s = true -> lastPoint s <> None ->
  drawing (after (dispatch e s)) = true
  /\ lastPoint (after (dispatch e s)) <> None
  /\ undoStack (after (dispatch e s)) = undoStack s
  /\ redoStack (after (dispatch e s)) = redoStack s.
Proof.
  intros He Hd Hl. destruct e; try contradiction.
  - destruct (pointerdown_spec ev s) as (s' & -> & H1 & H2 & _ & _ & H3 & H4).
    cbn [after]. rewrite H2. repeat split; try assumption. discriminate.
  - cbn [dispatch].
    destruct (lastPoint s) as [last |] eqn:E; [| contradiction].
    rewrite (on_pointermove_active ev last) by assumption.
    cbn [after]. repeat split; try assumption. discriminate.
Qed.

Lemma stroke_events_keep (es : list Event) (s : State) :
  Forall stroke_event es -> drawing s = true -> lastPoint s <> None ->
  drawing (run es s) = true
  /\ lastPoint (run es s) <> None
  /\ undoStack (run es s) = undoStack s
  /\ redoStack (run es s) = redoStack s.
Proof.
  intros Hes. revert s. induction Hes as [| e es He _ IH]; intros s Hd Hl;
    cbn [run].
  - repeat split; assumption.
  - destruct (stroke_event_keeps e s He Hd Hl) as (H1 & H2 & H3 & H4).
    destruct (IH _ H1 H2) as (K1 & K2 & K3 & K4).
    rewrite K3, K4, H3, H4. repeat split; assumption.
Qed.

(** What the event that ends a gesture does. *)
Lemma ending_event_spec (e : Event) (s : State) :
  ending_event e -> drawing s = true ->
  drawing (after (dispatch e s)) = false
  /\ bits (canvas (after (dispatch e s))) = bits (canvas s)
  /\ undoStack (after (dispatch e s))
     = match toDataURL (bits (canvas s)) "image/png" with
       | Some d => capped (undoStack s) d
       | None => undoStack s
       end
  /\ redoStack (after (dispatch e s)) = [].
Proof.
  intros He Hd. destruct (ending_event_eq e s He Hd) as [i ->]. cbn [after].
  destruct (endDrawing_spec (releasePointerCapture i s) Hd) as (H1 & H2 & H3 & H4).
  rewrite H1, H2, H3, H4. repeat split; reflexivity.
Qed.

(** A gesture, however many times the pointer goes down in it, takes one
    capture: the one its end takes. *)
Lemma gesture_captures_once (down : PointerEvent) (es : list Event) (e : Event)
    (s : State) :
  Forall stroke_event es -> ending_event e ->
  drawing (run (pointerdown down :: es ++ [e]) s) = false
  /\ undoStack (run (pointerdown down :: es ++ [e]) s)
     = match toDataURL (bits (canvas (run (pointerdown down :: es ++ [e]) s)))
               "image/png" with
       | Some d => capped (undoStack s) d
       | None => undoStack s
       end
  /\ redoStack (run (pointerdown down :: es ++ [e]) s) = [].
Proof.
  intros Hes He.
  change (pointerdown down :: es ++ [e]) with ((pointerdown down :: es) ++ [e]).
  rewrite run_app. cbn [run].
  destruct (pointerdown_spec down s) as (s1 & -> & Hd & Hl & _ & _ & Hu & _).
  cbn [after].
  destruct (stroke_events_keep es s1 Hes Hd) as (Kd & _ & Ku & _).
  { rewrite Hl. discriminate. }
  destruct (ending_event_spec e (run es s1) He Kd) as (E1 & E2 & E3 & E4).
  rewrite E1, E2, E3, E4, Ku, Hu. repeat split; reflexivity.
Qed.

Lemma events_of_shape (g : Gesture) :
  exists es e, events_of g = pointerdown (g_down g) :: es ++ [e]
               /\ Forall stroke_event es /\ ending_event e.
Proof.
  exists (map pointermove (g_moves g)),
         (if g_cancelled g then pointercancel (g_end g) else pointerup (g_end g)).
  repeat split.
  - apply Forall_forall. intros e He. apply in_map_iff in He.
    destruct He as (ev & <- & _). exact I.
  - destruct (g_cancelled g); exact I.
Qed.

Lemma capped_length (st : list string) (d : string) :
  (List.length st <= MAX_STEPS)%nat ->
  List.length (capped st d) = Nat.min (List.length st + 1) MAX_STEPS.
Proof.
  intros H. unfold capped.
  assert (L : List.length (st ++ [d]) = (List.length st + 1)%nat)
    by (rewrite length_app; reflexivity).
  destruct (Nat.ltb_spec MAX_STEPS (List.length (st ++ [d]))) as [Hlt | Hge].
  - destruct st as [| a st]; cbn [List.length app tl] in *;
      unfold MAX_STEPS in *; lia.
  - lia.
Qed.

Lemma capped_full (st : list string) (d : string) :
  List.length st = MAX_STEPS -> capped st d = tl st ++ [d].
Proof.
  intros H. unfold capped.
  assert (L : List.length (st ++ [d]) = (List.length st + 1)%nat)
    by (rewrite length_app; reflexivity).
  destruct (Nat.ltb_spec MAX_STEPS (List.length (st ++ [d]))) as [Hlt | Hge];
    [| lia].
  destruct st; [discriminate | reflexivity].
Qed.

Lemma capped_room (st : list string) (d : string) :
  (List.length st < MAX_STEPS)%nat -> capped st d = st ++ [d].
Proof.
  intros H. unfold capped.
  assert (L : List.length (st ++ [d]) = (List.length st + 1)%nat)
    by (rewrite length_app; reflexivity).
  destruct (Nat.ltb_spec MAX_STEPS (List.length (st ++ [d]))) as [Hlt | Hge];
    [lia | reflexivity].
Qed.

Lemma gesture_step (g : Gesture) (s : State) :
  drawing (run (events_of g) s) = false
  /\ undoStack (run (events_of g) s)
     = match toDataURL (bits (canvas (run (events_of g) s))) "image/png" with
       | Some d => capped (undoStack s) d
       | None => undoStack s
       end
  /\ redoStack (run (events_of g) s) = [].
Proof.
  destruct (events_of_shape g) as (es & e & -> & Hes & He).
  now apply gesture_captures_once.
Qed.

(** The events that are neither pointer events nor operations on the
    history leave the undo list alone. *)
Lemma other_events_keep_undoStack (e : Event) (s : State) :
  pointer_event e = false -> history_op e = false ->
  undoStack (after (dispatch e s)) = undoStack s.
Proof.
  destruct e; try discriminate; intros _ Hq; cbn [dispatch after];
    try reflexivity.
  - unfold on_color_input. split_cases; reflexivity.
  - unfold on_size_input, ctx_set_lineWidth. split_cases; reflexivity.
  - unfold on_save_click. split_cases; reflexivity.
  - unfold on_keydown. cbn [history_op] in Hq.
    repeat match goal with
           | |- context [if ?b then _ else _] => destruct b
           end;
      first [discriminate Hq | reflexivity].
  - unfold on_timeout. destruct (resizeTimer s); [| reflexivity].
    now destruct (resizeCanvas_frame (set_resizeTimer false s)) as (_ & _ & Hu & _).
  - unfold on_load. split_cases; reflexivity.
  - unfold on_blob. split_cases; reflexivity.
Qed.

Lemma pointermove_keeps (ev : PointerEvent) (s : State) :
  drawing (after (dispatch (pointermove ev) s)) = drawing s
  /\ undoStack (after (dispatch (pointermove ev) s)) = undoStack s.
Proof.
  cbn [dispatch]. destruct (drawing s) eqn:Hd.
  - destruct (lastPoint s) as [last |] eqn:Hl.
    + rewrite (on_pointermove_active ev last) by assumption.
      split; [exact Hd | reflexivity].
    + unfold on_pointermove, drawTo, getPoint. fields. rewrite Hd, Hl.
      split; [exact Hd | reflexivity].
  - rewrite on_pointermove_idle by exact Hd. split; [exact Hd | reflexivity].
Qed.

(** The length of the undo list along a trace free of history
    operations, from any state. *)
Lemma trace_length (es : list Event) (s : State) (n : nat) :
  (forall b t, toDataURL b t <> None) ->
  existsb history_op es = false ->
  List.length (undoStack s) = Nat.min n MAX_STEPS ->
  List.length (undoStack (run es s))
  = Nat.min (n + completed (drawing s) es) MAX_STEPS.
Proof.
  intros Henc. revert s n. induction es as [| e es IH]; intros s n Hq Hn.
  - cbn [run completed]. now rewrite Nat.add_0_r.
  - cbn [existsb] in Hq. apply orb_false_iff in Hq. destruct Hq as [Hq Hqs].
    cbn [run].
    destruct (pointer_event e) eqn:Hp.
    + destruct e; try discriminate; cbn [completed].
      * destruct (pointerdown_spec ev s) as (s' & E & Hd & _ & _ & _ & Hu & _).
        rewrite E. cbn [after].
        rewrite (IH s' n Hqs) by (now rewrite Hu). now rewrite Hd.
      * destruct (pointermove_keeps ev s) as [Hd Hu].
        rewrite (IH _ n Hqs) by (now rewrite Hu). now rewrite Hd.
      * destruct (drawing s) eqn:Hd.
        -- destruct (ending_event_spec (pointerup ev) s I Hd) as (Kd & _ & Ku & _).
           destruct (toDataURL (bits (canvas s)) "image/png") as [d |] eqn:E;
             [| now apply Henc in E].
           rewrite (IH _ (S n) Hqs).
           ++ rewrite Kd. f_equal. lia.
           ++ rewrite Ku, capped_length by (rewrite Hn; apply Nat.le_min_r).
              rewrite Hn. unfold MAX_STEPS. lia.
        -- cbn [dispatch]. unfold on_pointerup. rewrite Hd. cbn [negb after].
           rewrite (IH s n Hqs Hn). now rewrite Hd.
      * destruct (drawing s) eqn:Hd.
        -- destruct (ending_event_spec (pointercancel ev) s I Hd) as (Kd & _ & Ku & _).
           destruct (toDataURL (bits (canvas s)) "image/png") as [d |] eqn:E;
             [| now apply Henc in E].
           rewrite (IH _ (S n) Hqs).
           ++ rewrite Kd. f_equal. lia.
           ++ rewrite Ku, capped_length by (rewrite Hn; apply Nat.le_min_r).
              rewrite Hn. unfold MAX_STEPS. lia.
        -- cbn [dispatch]. unfold on_pointercancel. rewrite Hd. cbn [negb after].
           rewrite (IH s n Hqs Hn). now rewrite Hd.
    + destruct (other_events_keep_gesture e s Hp) as [Hd _].
      pose proof (other_events_keep_undoStack e s Hp Hq) as Hu.
      rewrite (IH _ n Hqs) by (now rewrite Hu). rewrite Hd.
      destruct e; try discriminate; reflexivity.
Qed.

(** A list of gestures is a trace free of history operations that
    completes as many gestures as the list holds. *)
Lemma gestures_completed (gs : list Gesture) (active : bool) :
  completed active (flat_map events_of gs) = List.length gs
  /\ existsb history_op (flat_map events_of gs) = false.
Proof.
  revert active. induction gs as [| g gs IH]; intros active; [now split |].
  cbn [flat_map List.length]. unfold events_of at 1 3.
  cbn [app completed existsb history_op orb].
  rewrite <- app_assoc.
  assert (M : forall ms rest,
             completed true (map pointermove ms ++ rest) = completed true rest
             /\ existsb history_op (map pointermove ms ++ rest)
                = existsb history_op rest).
  { induction ms as [| m ms IHm]; intros rest; [now split |].
    cbn [map app completed existsb history_op orb]. apply IHm. }
  destruct (M (g_moves g)
              ([if g_cancelled g then pointercancel (g_end g) else pointerup (g_end g)]
               ++ flat_map events_of gs)) as [-> ->].
  destruct (IH false) as [Hc Hq].
  destruct (g_cancelled g); cbn [app completed existsb history_op orb];
    rewrite Hc, Hq; now split.
Qed.

(** The same count for a list of gestures. *)
Lemma perform_length (p : Page) (s0 : State) (gs : list Gesture) :
  (forall b t, toDataURL b t <> None) ->
  script p = Done s0 ->
  List.length (undoStack (perform gs s0))
  = Nat.min (List.length gs + 1) MAX_STEPS.
Proof.
  intros Henc Hs. unfold perform.
  destruct (gestures_completed gs false) as [Hc Hq].
  assert (H0 : List.length (undoStack s0) = Nat.min 1 MAX_STEPS).
  { destruct (script_history p s0 Hs) as [-> _].
    destruct (toDataURL _ _) eqn:E; [reflexivity | now apply Henc in E]. }
  rewrite (trace_length _ s0 1 Henc Hq H0), (script_idle p s0 Hs), Hc.
  f_equal. lia.
Qed.

(** C1. After the script has started, along any trace of events free of
    undo, redo and clear operations that completes [N] gestures, every
    capture having succeeded, the undo list holds [min (N + 1) 30] entries;
    and the end of one more gesture appends its capture after dropping the
    entry at index 0 exactly when the list already holds 30. *)
Theorem undo_length_after_gestures (p : Page) (s0 : State) (es : list Event) :
  (forall b t, toDataURL b t <> None) ->
  script p = Done s0 ->
  existsb history_op es = false ->
  List.length (undoStack (run es s0))
  = Nat.min (completed false es + 1) MAX_STEPS
  /\ forall e : Event,
       ending_event e -> drawing (run es s0) = true ->
       exists d,
         toDataURL (bits (canvas (run (es ++ [e]) s0))) "image/png" = Some d
         /\ undoStack (run (es ++ [e]) s0)
            = (if Nat.leb MAX_STEPS (List.length (undoStack (run es s0)))
               then tl (undoStack (run es s0))
               else undoStack (run es s0)) ++ [d].
Proof.
  intros Henc Hs Hq.
  assert (H0 : List.length (undoStack s0) = Nat.min 1 MAX_STEPS).
  { destruct (script_history p s0 Hs) as [-> _].
    destruct (toDataURL _ _) eqn:E; [reflexivity | now apply Henc in E]. }
  pose proof (trace_length es s0 1 Henc Hq H0) as HN.
  rewrite (script_idle p s0 Hs) in HN.
  split; [rewrite HN; f_equal; lia |].
  intros e He Hd. rewrite run_app. cbn [run].
  destruct (ending_event_spec e (run es s0) He Hd) as (_ & -> & -> & _).
  destruct (toDataURL _ _) as [d |] eqn:E; [| now apply Henc in E].
  exists d. split; [reflexivity |].
  destruct (Nat.leb_spec MAX_STEPS (List.length (undoStack (run es s0))))
    as [Hfull | Hroom].
  - apply capped_full. rewrite HN in *.
    pose proof (Nat.le_min_r (1 + completed false es) MAX_STEPS). lia.
  - now apply capped_room.
Qed.

(** C8. In a state the page can reach, a [pointermove] during a gesture
    appends one [quadraticCurveTo] to the path, with the last point as its
    control point and the midpoint of the last point and the new point as
    its end, strokes the path and makes the new point the last point; a
    [pointermove] outside a gesture changes nothing. *)
Theorem move_extends_path (p : Page) (s : State) (ev : PointerEvent) :
  reachable p s ->
  (drawing s = true ->
   exists last s',
     lastPoint s = Some last
     /\ dispatch (pointermove ev) s = Done s'
     /\ path (ctx s')
        = path (ctx s)
          ++ [quadraticCurveTo (x last) (y last)
                ((x last + x (fst (getPoint ev s))) / 2)
                ((y last + y (fst (getPoint ev s))) / 2)]
     /\ bits (canvas s') = stroke (cur (ctx s)) (path (ctx s')) (bits (canvas s))
     /\ lastPoint s' = Some (fst (getPoint ev s))
     /\ drawing s' = true
     /\ undoStack s' = undoStack s
     /\ redoStack s' = redoStack s)
  /\ (drawing s = false -> dispatch (pointermove ev) s = Done s).
Proof.
  intros Hr. split; intros Hd.
  - destruct (lastPoint s) as [last |] eqn:Hl.
    2: { now destruct (reachable_gesture_ok p s Hr Hd). }
    exists last. eexists. split; [reflexivity |]. split.
    { cbn [dispatch]. apply (on_pointermove_active ev last); assumption. }
    repeat split; try reflexivity; assumption.
  - cbn [dispatch]. now apply on_pointermove_idle.
Qed.

(** C9. A [pointerdown] that arrives during a gesture returns normally,
    keeps the gesture in progress, makes its own point the last point and
    the start of a fresh path, and leaves the bitmap and both history lists
    as they are: the stroke under way is neither closed nor captured.
    Whatever [pointerdown] and [pointermove] events follow, the history
    receives one capture, at the [pointerup] or [pointercancel] that ends
    the gesture. *)
Theorem second_pointerdown_restarts (s : State) (ev : PointerEvent) :
  drawing s = true ->
  exists s',
    dispatch (pointerdown ev) s = Done s'
    /\ drawing s' = true
    /\ lastPoint s' = Some (fst (getPoint ev s))
    /\ path (ctx s') = [moveTo (x (fst (getPoint ev s))) (y (fst (getPoint ev s)))]
    /\ bits (canvas s') = bits (canvas s)
    /\ undoStack s' = undoStack s
    /\ redoStack s' = redoStack s
    /\ forall (es : list Event) (e : Event),
         Forall stroke_event es -> ending_event e ->
         drawing (run (es ++ [e]) s') = false
         /\ undoStack (run (es ++ [e]) s')
            = match toDataURL (bits (canvas (run (es ++ [e]) s'))) "image/png" with
              | Some d => capped (undoStack s) d
              | None => undoStack s
              end.
Proof.
  intros Hd.
  destruct (pointerdown_spec ev s) as (s' & E & H1 & H2 & H3 & H4 & H5 & H6).
  exists s'. rewrite H4. repeat split; try assumption.
  - pose proof (gesture_captures_once ev es e s H H0) as (K & _).
    cbn [run] in K. rewrite E in K. exact K.
  - pose proof (gesture_captures_once ev es e s H H0) as (_ & K & _).
    cbn [run] in K. rewrite E in K. exact K.
Qed.

End Gestures.

(** ** Properties of the coordinate mapper and of the resize *)

Section Numbers.

Lemma is_zero_spec (w : JS.number) :
  PrimFloat.is_zero w = true -> exists sg, Prim2SF w = S754_zero sg.
Proof.
  unfold PrimFloat.is_zero. rewrite FloatAxioms.eqb_spec.
  change (Prim2SF PrimFloat.zero) with (S754_zero false).
  destruct (Prim2SF w) as [sg | sg | | sg m e]; cbn [SFeqb SFcompare]; intros E.
  - now exists sg.
  - destruct sg; discriminate.
  - discriminate.
  - destruct sg; discriminate.
Qed.

(** Zero times anything is a zero or a NaN. *)
Lemma zero_times (w d : JS.number) :
  PrimFloat.is_zero w = true ->
  (exists sg, Prim2SF (w * d) = S754_zero sg) \/ Prim2SF (w * d) = S754_nan.
Proof.
  intros H. destruct (is_zero_spec w H) as [sg Hw].
  rewrite mul_spec, Hw. unfold SF64mul.
  destruct (Prim2SF d) as [sd | sd | | sd m e]; cbn [SFmul]; eauto.
Qed.

(** A backing dimension computed from a display dimension of zero is zero,
    whatever the density and whatever the attribute's default. *)
Lemma zero_display_dimension (default : Z) (w d : JS.number) :
  PrimFloat.is_zero w = true ->
  JS.reflect_unsigned_long default (JS.Math_round (w * d)) = 0.
Proof.
  intros H.
  unfold JS.reflect_unsigned_long, JS.to_unsigned_long, JS.trunc, JS.Math_round.
  destruct (zero_times w d H) as [[sg E] | E]; rewrite E, E; reflexivity.
Qed.

Lemma one_spec : Prim2SF 1 = S754_finite false 4503599627370496 (-52).
Proof. reflexivity. Qed.

(** What a number at least one looks like to the tests the script makes. *)
Lemma at_least_one (d : JS.number) :
  PrimFloat.leb 1 d = true ->
  PrimFloat.is_nan d = false
  /\ PrimFloat.is_zero d = false
  /\ PrimFloat.ltb d 1 = false
  /\ PrimFloat.ltb d 0 = false.
Proof.
  unfold PrimFloat.is_nan, PrimFloat.is_zero.
  rewrite leb_spec, !ltb_spec, !FloatAxioms.eqb_spec, one_spec.
  change (Prim2SF 0) with (S754_zero false).
  change (Prim2SF PrimFloat.zero) with (S754_zero false).
  unfold SFleb, SFltb, SFeqb.
  destruct (Prim2SF d) as [sg | sg | | sg m e]; cbn [SFcompare]; try discriminate.
  - destruct sg; [discriminate |]. intros _. repeat split; reflexivity.
  - destruct sg; [discriminate |].
    rewrite (Z.compare_antisym (-52) e), Z.compare_refl, Pos.compare_cont_refl.
    destruct (-52 ?= e) eqn:E; cbn [CompOpp]; try discriminate;
      intros H; repeat split; try reflexivity.
    assert (A : Pos.compare_cont Eq m 4503599627370496
                = CompOpp (Pos.compare_cont Eq 4503599627370496 m))
      by (symmetry; apply (Pos.compare_cont_antisym 4503599627370496 m Eq)).
    rewrite A.
    destruct (Pos.compare_cont Eq 4503599627370496 m); try discriminate; reflexivity.
Qed.

(** On a display whose ratio is at least one, the density the script works
    with is [window.devicePixelRatio] itself. *)
Lemma dpr_of_ordinary_display (w : World) :
  PrimFloat.leb 1 (devicePixelRatio w) = true -> dpr w = devicePixelRatio w.
Proof.
  intros H. destruct (at_least_one _ H) as (Hn & Hz & Hl & Hs).
  unfold dpr, JS.or_else, JS.truthy. rewrite Hz, Hn. cbn [orb negb].
  unfold JS.Math_max. rewrite Hn.
  change (PrimFloat.is_nan 1) with false. cbn [orb].
  rewrite Hl.
  destruct (PrimFloat.ltb 1 (devicePixelRatio w)); [reflexivity |].
  unfold PrimFloat.get_sign. rewrite Hz. cbv beta iota zeta.
  change PrimFloat.zero with 0%float. rewrite Hs. reflexivity.
Qed.

(** A number that is not a NaN and is not below one is at least one. *)
Lemma not_below_one (d : JS.number) :
  PrimFloat.is_nan d = false -> PrimFloat.ltb d 1 = false ->
  PrimFloat.leb 1 d = true.
Proof.
  unfold PrimFloat.is_nan.
  rewrite leb_spec, ltb_spec, FloatAxioms.eqb_spec, one_spec.
  unfold SFleb, SFltb, SFeqb.
  destruct (Prim2SF d) as [sg | sg | | sg m e]; cbn [SFcompare negb];
    try discriminate.
  - destruct sg; [discriminate | reflexivity].
  - destruct sg; [discriminate |]. intros _.
    rewrite (Z.compare_antisym (-52) e).
    destruct (-52 ?= e) eqn:E; cbn [CompOpp]; try discriminate;
      try reflexivity.
    assert (A : Pos.compare_cont Eq m 4503599627370496
                = CompOpp (Pos.compare_cont Eq 4503599627370496 m))
      by (symmetry; apply (Pos.compare_cont_antisym 4503599627370496 m Eq)).
    rewrite A.
    destruct (Pos.compare_cont Eq 4503599627370496 m); try discriminate;
      reflexivity.
Qed.

(** On a display whose ratio is below one, zero or not a number, the
    density the script works with is one. *)
Lemma dpr_below_one (w : World) :
  PrimFloat.leb 1 (devicePixelRatio w) = false -> dpr w = 1%float.
Proof.
  intros H. unfold dpr, JS.or_else, JS.truthy.
  destruct (PrimFloat.is_zero (devicePixelRatio w)); [reflexivity |].
  destruct (PrimFloat.is_nan (devicePixelRatio w)) eqn:N; [reflexivity |].
  cbn [orb negb]. unfold JS.Math_max. rewrite N.
  change (PrimFloat.is_nan 1) with false. cbn [orb].
  destruct (PrimFloat.ltb (devicePixelRatio w) 1) eqn:L; [reflexivity |].
  rewrite (not_below_one _ N L) in H. discriminate H.
Qed.

(** X16. The pixel density the script works with is at least one whatever
    [window.devicePixelRatio] reports: zero, a NaN, a negative ratio or a
    ratio below one all give a density of one or more. *)
Theorem density_at_least_one (w : World) :
  PrimFloat.leb 1 (dpr w) = true.
Proof.
  unfold dpr.
  remember (JS.or_else (devicePixelRatio w) 1) as r eqn:E.
  assert (Hn : PrimFloat.is_nan r = false).
  { rewrite E. unfold JS.or_else, JS.truthy.
    destruct (PrimFloat.is_zero (devicePixelRatio w));
      destruct (PrimFloat.is_nan (devicePixelRatio w)) eqn:N;
      cbn [orb negb]; try reflexivity. exact N. }
  clear E. unfold JS.Math_max. rewrite Hn.
  change (PrimFloat.is_nan 1) with false. cbn [orb].
  destruct (PrimFloat.ltb r 1) eqn:L; [reflexivity |].
  destruct (PrimFloat.ltb 1 r); [now apply not_below_one |].
  destruct (PrimFloat.get_sign r); [reflexivity | now apply not_below_one].
Qed.

End Numbers.

Section Surface.

Context {bitmap : Type} {UA : UserAgent bitmap}.
Local Abbreviation State := (@State bitmap).

(** C7. The coordinate mapper returns the point whose coordinates are the
    event's position relative to the canvas rectangle, times the backing
    size over the displayed size, divided by the pixel density [dpr] the
    script works with, [Math.max(window.devicePixelRatio || 1, 1)]: that is
    the device's pixel density when it is at least one, and one when it is
    below one, zero or not a number.  So the point is the one the
    specification gives whenever the device's density is at least one.  The
    mapper hands back the state it was given, and the point it returns is
    the one a [pointerdown] records as the last point. *)
Theorem getPoint_formula (ev : PointerEvent) (s : State) :
  getPoint ev s
  = ({| x := (clientX ev - rect_left (world s))
             * (JS.of_Z (width (canvas s)) / rect_width (world s))
             / dpr (world s);
        y := (clientY ev - rect_top (world s))
             * (JS.of_Z (height (canvas s)) / rect_height (world s))
             / dpr (world s) |},
     s)
  /\ dpr (world s)
     = (if PrimFloat.leb 1 (devicePixelRatio (world s))
        then devicePixelRatio (world s) else 1%float)
  /\ (PrimFloat.leb 1 (devicePixelRatio (world s)) = true ->
      getPoint ev s = (specified_point ev s, s))
  /\ lastPoint (after (dispatch (pointerdown ev) s)) = Some (fst (getPoint ev s)).
Proof.
  split; [reflexivity |].
  split.
  { destruct (PrimFloat.leb 1 (devicePixelRatio (world s))) eqn:H.
    - now apply dpr_of_ordinary_display.
    - now apply dpr_below_one. }
  split.
  { intros H. unfold getPoint, specified_point.
    now rewrite (dpr_of_ordinary_display (world s) H). }
  destruct (pointerdown_spec ev s) as (s' & -> & _ & H & _). exact H.
Qed.

(** What [resizeCanvas] does to a canvas that has pixels. *)
Lemma resizeCanvas_usable (s : State) :
  usable (canvas s) = true ->
  exists s',
    resizeCanvas s = Done s'
    /\ width (canvas s')
       = JS.reflect_unsigned_long 300
           (JS.Math_round (rect_width (world s) * dpr (world s)))
    /\ height (canvas s')
       = JS.reflect_unsigned_long 150
           (JS.Math_round (rect_height (world s) * dpr (world s)))
    /\ style_width (canvas s') = Some (rect_width (world s))
    /\ style_height (canvas s') = Some (rect_height (world s))
    /\ bits (canvas s')
       = drawImage (cur (ctx s'))
           (drawImage default_DrawState (bits (canvas s)) 0 0 None
              (blank (width (canvas s)) (height (canvas s))))
           0 0
           (Some ((JS.of_Z (width (canvas s)) / dpr (world s))%float,
                  (JS.of_Z (height (canvas s)) / dpr (world s))%float))
           (blank (width (canvas s')) (height (canvas s'))).
Proof.
  intros Hu. unfold resizeCanvas. rewrite Hu. cbn [negb].
  unfold usable in Hu. rewrite Hu.
  eexists. split; [reflexivity |].
  unfold ctx_setTransform.
  destruct (forallb _ _); repeat split; reflexivity.
Qed.

Lemma resizeCanvas_unusable (s : State) :
  usable (canvas s) = false -> resizeCanvas s = Thrown InvalidStateError s.
Proof.
  intros Hu. unfold resizeCanvas. now rewrite Hu.
Qed.

(** C4, as the script has it.  On a canvas that has pixels [resizeCanvas]
    returns normally and records the display size in the style; a display
    width of zero gives the canvas a backing width of zero, a display height
    of zero a backing height of zero, and the bitmap is a new one of that
    size into which the old picture is drawn. *)
Theorem zero_display_resize (s : State) :
  usable (canvas s) = true ->
  exists s',
    resizeCanvas s = Done s'
    /\ style_width (canvas s') = Some (rect_width (world s))
    /\ style_height (canvas s') = Some (rect_height (world s))
    /\ (PrimFloat.is_zero (rect_width (world s)) = true -> width (canvas s') = 0)
    /\ (PrimFloat.is_zero (rect_height (world s)) = true -> height (canvas s') = 0)
    /\ exists d img dsize,
         bits (canvas s')
         = drawImage d img 0 0 dsize (blank (width (canvas s')) (height (canvas s'))).
Proof.
  intros Hu.
  destruct (resizeCanvas_usable s Hu) as (s' & E & Hw & Hh & Hsw & Hsh & Hb).
  exists s'. repeat split; try assumption.
  - intros Hz. rewrite Hw. now apply zero_display_dimension.
  - intros Hz. rewrite Hh. now apply zero_display_dimension.
  - eexists _, _, _. exact Hb.
Qed.

End Surface.

(** ** Properties of restores *)

Section Restores.

Context {bitmap : Type} {UA : UserAgent bitmap}.
Local Abbreviation State := (@State bitmap).

Lemma nth_error_middle {A} (l r : list A) (a : A) :
  nth_error (l ++ a :: r) (List.length l) = Some a.
Proof.
  rewrite nth_error_app2 by lia. now rewrite Nat.sub_diag.
Qed.

Lemma remove_middle {A} (l r : list A) (a : A) :
  firstn (List.length l) (l ++ a :: r) ++ skipn (S (List.length l)) (l ++ a :: r)
  = l ++ r.
Proof.
  rewrite firstn_app, Nat.sub_diag, firstn_all, skipn_app.
  replace (S (List.length l) - List.length l)%nat with 1%nat by lia.
  rewrite skipn_all2 by lia. cbn [skipn app]. now rewrite app_nil_r.
Qed.

(** Delivering the image queued behind [l]. *)
Lemma on_load_at (l r : list string) (d : string) (s : State) :
  loading s = l ++ d :: r ->
  on_load (List.length l) s
  = match decode d with
    | Some img => onload img (set_loading (l ++ r) s)
    | None => set_loading (l ++ r) s
    end.
Proof.
  intros H. unfold on_load. now rewrite H, nth_error_middle, remove_middle.
Qed.

Lemma on_load_beyond (k : nat) (s : State) :
  (List.length (loading s) <= k)%nat -> on_load k s = s.
Proof.
  intros H. unfold on_load.
  now destruct (nth_error_None (loading s) k) as [_ ->].
Qed.

(** Delivering the image queued behind [l]: the image leaves the queue,
    and its [onload], when it decodes, repaints the canvas and touches
    nothing else. *)
Lemma on_load_spec (l r : list string) (d : string) (s : State) :
  loading s = l ++ d :: r ->
  undoStack (on_load (List.length l) s) = undoStack s
  /\ redoStack (on_load (List.length l) s) = redoStack s
  /\ loading (on_load (List.length l) s) = l ++ r
  /\ bits (canvas (on_load (List.length l) s))
     = match decode d with
       | Some img => bits (canvas (onload img s))
       | None => bits (canvas s)
       end.
Proof.
  intros H. rewrite (on_load_at l r d s H).
  destruct (decode d); repeat split; reflexivity.
Qed.

(** [undo()] then [redo()]: the lists are back, the canvas is untouched,
    and the restores of the entry below the top (when it is a non-empty
    string) and of the top entry are pending, in that order. *)
Lemma undo_redo_lists (s : State) (rest : list string) (top : string) :
  (2 <= List.length (undoStack s))%nat ->
  undoStack s = rest ++ [top] ->
  undoStack (redo (undo s)) = undoStack s
  /\ redoStack (redo (undo s)) = redoStack s
  /\ canvas (redo (undo s)) = canvas s
  /\ exists pending,
       (List.length pending <= 1)%nat
       /\ loading (redo (undo s)) = loading s ++ pending ++ [top].
Proof.
  intros Hlen Hs.
  destruct (undo_moves_one s) as (last & rest' & Hu & Hu' & Hr' & Hc & Hl);
    [lia |].
  rewrite Hs in Hu. apply app_inj_tail in Hu. destruct Hu as [<- <-].
  destruct (redo_moves_one (undo s)) as (next & rest'' & Kr & Kr' & Ku' & Kc & Kl).
  { rewrite Hr'. now destruct (redoStack s). }
  rewrite Hr' in Kr. apply app_inj_tail in Kr. destruct Kr as [<- <-].
  rewrite Ku', Hu', Kr', Kc, Hc, Kl, Hl, Hs. repeat split.
  eexists. split; [| now rewrite <- app_assoc].
  destruct (nth_error rest _) as [q |]; [destruct (String.eqb q EmptyString) |];
    cbn [List.length]; lia.
Qed.

(** What holds of the round trip in every state.  On an undo list of at
    least two entries, [undo()] followed by [redo()] puts both lists back as
    they were and does not touch the bitmap, and the lists stay so when the
    restores the two calls started are delivered.  What the restores paint
    is another matter: see [round_trip_after_erasing]. *)
Lemma round_trip_lists (s : State) (rest : list string) (top : string) :
  (2 <= List.length (undoStack s))%nat ->
  undoStack s = rest ++ [top] ->
  undoStack (round_trip s) = undoStack s
  /\ redoStack (round_trip s) = redoStack s
  /\ bits (canvas (run [undo_click; redo_click] s)) = bits (canvas s).
Proof.
  intros Hlen Hs.
  destruct (undo_redo_lists s rest top Hlen Hs) as (Hu & Hr & Hc & pending & Hp & Hl).
  change (run [undo_click; redo_click] s) with (redo (undo s)) in *.
  change (round_trip s)
    with (on_load (List.length (loading s))
            (on_load (List.length (loading s)) (redo (undo s)))).
  remember (redo (undo s)) as s2 eqn:Es2. clear Es2.
  rewrite Hc.
  destruct pending as [| q [| ? ?]]; [| | cbn [List.length] in Hp; lia];
    cbn [app] in Hl.
  - (* the only restore pending is that of the top entry *)
    destruct (on_load_spec (loading s) [] top s2 Hl) as (K1 & K2 & K3 & _).
    remember (on_load (List.length (loading s)) s2) as s3 eqn:Es3. clear Es3.
    rewrite on_load_beyond by (rewrite K3, app_nil_r; lia).
    rewrite K1, K2. split; [exact Hu |]. split; [exact Hr | reflexivity].
  - (* two restores are pending *)
    destruct (on_load_spec (loading s) [top] q s2 Hl) as (K1 & K2 & K3 & _).
    remember (on_load (List.length (loading s)) s2) as s3 eqn:Es3. clear Es3.
    destruct (on_load_spec (loading s) [] top s3 K3) as (L1 & L2 & _).
    rewrite L1, L2, K1, K2. split; [exact Hu |]. split; [exact Hr | reflexivity].
Qed.

(** The clear button captures first and clears afterwards: the entry it
    appends is the picture that is about to go. *)
Lemma clear_captures_before (s : State) :
  undoStack (on_clear_click s)
  = match toDataURL (bits (canvas s)) "image/png" with
    | Some d => capped (undoStack s) d
    | None => undoStack s
    end
  /\ redoStack (on_clear_click s) = [].
Proof.
  unfold on_clear_click. split; [| reflexivity]. apply pushUndo_undoStack.
Qed.

End Restores.


(** ** Invariants of the page *)

Section Invariants.

Context {bitmap : Type} {UA : UserAgent bitmap}.
Local Abbreviation State := (@State bitmap).

(** Unfolds the listeners down to the updates of the state. *)
Lemma dispatch_buttons_ok (e : Event) (s : State) :
  buttons_ok s -> buttons_ok (after (dispatch e s)).
Proof.
  unfold buttons_ok. intros [Hu Hr].
  destruct e; listeners; split_cases; fields; split; congruence.
Qed.

Lemma script_buttons_ok (p : Page) (s : State) :
  script p = Done s -> buttons_ok s.
Proof.
  unfold script, init. intros H.
  destruct (resizeCanvas (fillBackgroundWhite (start p))) as [s1 | e s1];
    [| discriminate].
  injection H as <-. unfold pushUndo, buttons_ok.
  destruct (toDataURL _ _); unfold updateUndoRedoButtons; fields;
    split; reflexivity.
Qed.

(** X1. In every state the page can reach, the undo button is disabled
    exactly when the undo list holds at most one entry, and the redo button
    exactly when the redo list is empty. *)
Theorem buttons_follow_history (p : Page) (s : State) :
  reachable p s -> buttons_ok s.
Proof.
  induction 1 as [s H | e s _ IH].
  - now apply (script_buttons_ok p).
  - now apply dispatch_buttons_ok.
Qed.

Lemma dispatch_tool_shown (e : Event) (s : State) :
  tool_shown s -> tool_shown (after (dispatch e s)).
Proof.
  unfold tool_shown. destruct (tool s) eqn:Ht; intros [Hb He];
    destruct e; listeners; split_cases; fields; rewrite ?Ht;
    split; congruence.
Qed.

Lemma script_tool_shown (p : Page) (s : State) :
  script p = Done s -> tool_shown s /\ tool s = brush.
Proof.
  unfold script, init. intros H.
  destruct (resizeCanvas (fillBackgroundWhite (start p))) as [s1 | e s1];
    [| discriminate].
  injection H as <-. unfold pushUndo, tool_shown.
  destruct (toDataURL _ _); repeat split; reflexivity.
Qed.

(** X2. In every state the page can reach, the button of the current tool
    is the one shown as active and pressed, and the other one is not. *)
Theorem tool_buttons_follow_tool (p : Page) (s : State) :
  reachable p s -> tool_shown s.
Proof.
  induction 1 as [s H | e s _ IH].
  - now apply (script_tool_shown p).
  - now apply dispatch_tool_shown.
Qed.

Lemma undo_history_step (s : State) : history_step s (undo s).
Proof.
  destruct (Nat.leb_spec (List.length (undoStack s)) 1) as [Hle | Hgt].
  - rewrite undo_idle by exact Hle. now apply step_none.
  - destruct (undo_moves_one s Hgt) as (last & rest & Hu & Hu' & Hr' & _).
    apply (step_undo s (undo s) last).
    + now rewrite Hu'.
    + exact Hr'.
    + rewrite Hu'. intros ->. rewrite Hu in Hgt. cbn in Hgt. lia.
Qed.

Lemma redo_history_step (s : State) : history_step s (redo s).
Proof.
  destruct (redoStack s) as [| a l] eqn:E.
  - rewrite redo_idle by exact E. apply step_none; [reflexivity | now rewrite E].
  - destruct (redo_moves_one s) as (next & rest & Hr & Hr' & Hu' & _).
    { rewrite E. discriminate. }
    apply (step_redo s (redo s) next).
    + rewrite Hr'. exact Hr.
    + exact Hu'.
Qed.

Lemma quiet_events_keep_history (e : Event) (s : State) :
  history_op e = false ->
  drawing s = false \/ ~ ending_event e ->
  undoStack (after (dispatch e s)) = undoStack s
  /\ redoStack (after (dispatch e s)) = redoStack s.
Proof.
  intros Hq Hp.
  destruct e; cbn [history_op] in Hq; try discriminate Hq;
    try (assert (Hd : drawing s = false)
           by (destruct Hp as [Hd | Hne];
               [exact Hd | exfalso; apply Hne; exact I]));
    clear Hp; listeners; fields;
    try match goal with
        | H : drawing s = false |- _ => rewrite H
        end;
    split_cases; fields; split; congruence.
Qed.

Lemma dispatch_history_step (e : Event) (s : State) :
  history_step s (after (dispatch e s)).
Proof.
  destruct (history_op e) eqn:Hq.
  - destruct e; try discriminate Hq; cbn [dispatch after].
    + destruct (clear_captures_before s) as [Hu Hr].
      apply step_capture; [exact Hr |]. rewrite Hu.
      destruct (toDataURL _ _) as [d |]; [right; now exists d | now left].
    + apply undo_history_step.
    + apply redo_history_step.
    + unfold on_keydown. cbn [history_op] in Hq.
      repeat match goal with
             | |- context [if ?b then _ else _] => destruct b
             end;
        first [discriminate Hq | apply undo_history_step
              | apply redo_history_step].
  - destruct (drawing s) eqn:Hd.
    + destruct e;
        try (destruct (quiet_events_keep_history _ s Hq
                         ltac:(right; intros F; exact F)) as [Hu Hr];
             now apply step_none).
      * destruct (ending_event_spec (pointerup ev) s I Hd) as (_ & _ & Hu & Hr).
        apply step_capture; [exact Hr |]. rewrite Hu.
        destruct (toDataURL _ _) as [d |]; [right; now exists d | now left].
      * destruct (ending_event_spec (pointercancel ev) s I Hd) as (_ & _ & Hu & Hr).
        apply step_capture; [exact Hr |]. rewrite Hu.
        destruct (toDataURL _ _) as [d |]; [right; now exists d | now left].
    + destruct (quiet_events_keep_history e s Hq (or_introl Hd)) as [Hu Hr].
      now apply step_none.
Qed.

(** X3. Whatever the event, the history afterwards is the history before,
    or one entry has moved from the end of the undo list to the end of the
    redo list leaving the undo list non-empty, or one entry has moved back,
    or the redo list is empty and the undo list is as before or has one
    capture appended under the cap. *)
Theorem every_event_history_step (e : Event) (s : State) :
  history_step s (after (dispatch e s)).
Proof.
  exact (dispatch_history_step e s).
Qed.

Lemma capped_nonempty (st : list string) (d : string) : capped st d <> [].
Proof.
  unfold capped.
  destruct (Nat.ltb_spec MAX_STEPS (List.length (st ++ [d]))) as [Hlt | Hge].
  - intros E. apply (f_equal (@List.length string)) in E.
    destruct (st ++ [d]) as [| a l]; cbn [tl List.length] in *;
      unfold MAX_STEPS in *; lia.
  - now destruct st.
Qed.

Lemma capped_bounded (st : list string) (d : string) :
  (List.length st <= MAX_STEPS)%nat ->
  (List.length (capped st d) <= MAX_STEPS)%nat.
Proof.
  intros H. rewrite capped_length by exact H. apply Nat.le_min_r.
Qed.

(** X4. In every state the page can reach, the undo list and the redo
    list together hold at most thirty snapshots, whether captures succeed
    or fail. *)
Theorem history_bounded (p : Page) (s : State) :
  reachable p s ->
  (List.length (undoStack s) + List.length (redoStack s) <= MAX_STEPS)%nat.
Proof.
  induction 1 as [s H | e s _ IH].
  - destruct (script_history p s H) as [-> ->].
    destruct (toDataURL _ _); cbn [List.length]; unfold MAX_STEPS; lia.
  - destruct (dispatch_history_step e s) as [Hu Hr | last Hu Hr _ | next Hr Hu | Hr Hu].
    + now rewrite Hu, Hr.
    + rewrite Hu, length_app in IH. rewrite Hr, length_app.
      cbn [List.length] in *. lia.
    + rewrite Hr, length_app in IH. rewrite Hu, length_app.
      cbn [List.length] in *. lia.
    + rewrite Hr. cbn [List.length]. rewrite Nat.add_0_r.
      destruct Hu as [-> | [d ->]]; [lia |].
      apply capped_bounded. lia.
Qed.

(** X5. Once the undo list holds an entry it never becomes empty again:
    no trace of events, undos included, removes the last entry. *)
Theorem undo_floor_kept (es : list Event) (s : State) :
  undoStack s <> [] -> undoStack (run es s) <> [].
Proof.
  revert s. induction es as [| e es IH]; intros s Hs; cbn [run]; [exact Hs |].
  apply IH.
  destruct (dispatch_history_step e s) as [Hu Hr | last Hu Hr Hne | next Hr Hu | Hr Hu].
  - now rewrite Hu.
  - exact Hne.
  - rewrite Hu. now destruct (undoStack s).
  - destruct Hu as [-> | [d ->]]; [exact Hs | apply capped_nonempty].
Qed.

(** X6. [undo()] and [redo()] never change the snapshots the history
    holds nor their order: the undo list followed by the reversed redo list
    is the same before and after, whether the call moves an entry or
    returns at its guard. *)
Theorem undo_redo_keep_timeline (s : State) :
  timeline (undo s) = timeline s /\ timeline (redo s) = timeline s.
Proof.
  unfold timeline. split.
  - destruct (Nat.leb_spec (List.length (undoStack s)) 1) as [Hle | Hgt].
    + now rewrite undo_idle.
    + destruct (undo_moves_one s Hgt) as (last & rest & Hu & Hu' & Hr' & _).
      rewrite Hu', Hr', Hu, rev_app_distr, <- app_assoc. reflexivity.
  - assert (E : redoStack s = [] \/ redoStack s <> [])
      by (destruct (redoStack s); [now left | now right]).
    destruct E as [E | E].
    + now rewrite redo_idle.
    + destruct (redo_moves_one s E) as (next & rest & Hr & Hr' & Hu' & _).
      rewrite Hu', Hr', Hr, rev_app_distr, <- app_assoc. reflexivity.
Qed.

Lemma dispatch_context_tidy (e : Event) (s : State) :
  context_tidy s -> context_tidy (after (dispatch e s)).
Proof.
  unfold context_tidy. intros [Hs Hw].
  destruct e; listeners; split_cases; fields;
    split; first [assumption | reflexivity | congruence].
Qed.

Lemma script_context_tidy (p : Page) (s : State) :
  script p = Done s -> context_tidy s.
Proof.
  unfold script, init. intros H.
  assert (H0 : context_tidy (fillBackgroundWhite (start p))).
  { unfold context_tidy. split; reflexivity. }
  assert (H1 : context_tidy (after (resizeCanvas (fillBackgroundWhite (start p))))).
  { revert H0. generalize (fillBackgroundWhite (start p)). intros s0 [Hs Hw].
    unfold context_tidy. listeners. split_cases; fields;
      split; first [assumption | reflexivity]. }
  destruct (resizeCanvas (fillBackgroundWhite (start p))) as [s1 | e s1];
    [| discriminate].
  injection H as <-. cbn [after] in H1. destruct H1 as [Hs Hw].
  unfold context_tidy. listeners. split_cases; fields;
    split; first [assumption | reflexivity].
Qed.

(** X7. In every state the page can reach, between two listeners the
    context has no saved drawing state left on its stack (every [save] has
    had its [restore]) and its line width is a finite positive number,
    whatever values the size control has sent. *)
Theorem context_stays_tidy (p : Page) (s : State) :
  reachable p s -> context_tidy s.
Proof.
  induction 1 as [s H | e s _ IH].
  - now apply (script_context_tidy p).
  - now apply dispatch_context_tidy.
Qed.

Lemma dispatch_keeps_unusable (e : Event) (s : State) :
  usable (canvas s) = false -> usable (canvas (after (dispatch e s))) = false.
Proof.
  intros Hu.
  destruct e; listeners; fields; rewrite ?Hu; split_cases; fields;
    first [exact Hu | congruence].
Qed.

(** X8. A canvas whose backing width or height is zero keeps that size
    whatever events follow: [resizeCanvas] throws before it changes
    anything, the export throws as well, and no other listener assigns the
    size. *)
Theorem zero_size_is_permanent (es : list Event) (s : State) :
  usable (canvas s) = false ->
  usable (canvas (run es s)) = false
  /\ resizeCanvas (run es s) = Thrown InvalidStateError (run es s)
  /\ dispatch save_click (run es s) = Thrown InvalidStateError (run es s).
Proof.
  intros Hu.
  assert (H : usable (canvas (run es s)) = false).
  { revert s Hu. induction es as [| e es IH]; intros s Hu; cbn [run];
      [exact Hu | apply IH; now apply dispatch_keeps_unusable]. }
  split; [exact H |]. split.
  - now apply resizeCanvas_unusable.
  - cbn [dispatch]. unfold on_save_click. now rewrite H.
Qed.

End Invariants.

(** ** How the operations compose *)

Section Composition.

Context {bitmap : Type} {UA : UserAgent bitmap}.
Local Abbreviation State := (@State bitmap).

Lemma resizes_arm_once (n : nat) (s : State) :
  run (repeat resize (S n)) s = set_resizeTimer true s.
Proof.
  revert s. induction n as [| n IH]; intros s; [reflexivity |].
  change (run (repeat resize (S (S n))) s)
    with (run (repeat resize (S n)) (set_resizeTimer true s)).
  now rewrite IH.
Qed.

Lemma resizeCanvas_disarmed (s : State) :
  resizeTimer s = false -> resizeTimer (after (resizeCanvas s)) = false.
Proof.
  intros H. listeners. split_cases; exact H.
Qed.

(** X9. Any number of resize events followed by one expiry of the
    debounce timer call [resizeCanvas] once, and a further expiry does
    nothing. *)
Theorem resize_events_coalesce (n : nat) (s : State) :
  run (repeat resize (S n) ++ [timeout]) s
  = after (resizeCanvas (set_resizeTimer false s))
  /\ dispatch timeout (run (repeat resize (S n) ++ [timeout]) s)
     = Done (run (repeat resize (S n) ++ [timeout]) s).
Proof.
  assert (E : run (repeat resize (S n) ++ [timeout]) s
              = after (resizeCanvas (set_resizeTimer false s))).
  { rewrite run_app, resizes_arm_once. reflexivity. }
  split; [exact E |]. rewrite E.
  cbn [dispatch]. unfold on_timeout.
  now rewrite (resizeCanvas_disarmed (set_resizeTimer false s) eq_refl).
Qed.

(** X10. When the capture at the end of a gesture fails, the listener
    still returns normally and ends the gesture: the undo list and the
    bitmap are as they were and the redo list is emptied. *)
Theorem failed_capture_is_swallowed (e : Event) (s : State) :
  ending_event e -> drawing s = true ->
  toDataURL (bits (canvas s)) "image/png" = None ->
  exists s',
    dispatch e s = Done s'
    /\ drawing s' = false
    /\ undoStack s' = undoStack s
    /\ redoStack s' = []
    /\ bits (canvas s') = bits (canvas s).
Proof.
  intros He Hd Hn.
  destruct (ending_event_spec e s He Hd) as (H1 & H2 & H3 & H4).
  destruct (ending_event_eq e s He Hd) as [i E].
  rewrite E in *. cbn [after] in *. rewrite Hn in H3.
  eexists. split; [reflexivity |]. repeat split; assumption.
Qed.

Lemma resizeCanvas_style (s : State) :
  usable (canvas s) = true ->
  tool (after (resizeCanvas s)) = tool s
  /\ color (after (resizeCanvas s)) = color s
  /\ globalCompositeOperation (cur (ctx (after (resizeCanvas s))))
     = "source-over"%string
  /\ strokeStyle (cur (ctx (after (resizeCanvas s)))) = "#000000"%string.
Proof.
  intros Hu. listeners. rewrite Hu.
  split_cases; repeat split; reflexivity.
Qed.

Lemma pointerdown_style (ev : PointerEvent) (s : State) :
  globalCompositeOperation (cur (ctx (after (dispatch (pointerdown ev) s))))
  = globalCompositeOperation (cur (ctx s))
  /\ strokeStyle (cur (ctx (after (dispatch (pointerdown ev) s))))
     = match tool s with
       | brush => color s
       | eraser => "rgba(0,0,0,1)"%string
       end.
Proof.
  listeners. split_cases; split; reflexivity.
Qed.

Lemma tool_click_style (s : State) :
  (tool (after (dispatch eraser_click s)) = eraser
   /\ globalCompositeOperation (cur (ctx (after (dispatch eraser_click s))))
      = "destination-out"%string)
  /\ (tool (after (dispatch brush_click s)) = brush
      /\ color (after (dispatch brush_click s)) = color s
      /\ globalCompositeOperation (cur (ctx (after (dispatch brush_click s))))
         = "source-over"%string).
Proof.
  listeners. fields. repeat split; reflexivity.
Qed.

Lemma color_input_style (c : string) (s : State) :
  tool (after (dispatch (color_input c) s)) = tool s
  /\ color (after (dispatch (color_input c) s)) = c.
Proof.
  listeners. split_cases; fields; split; congruence.
Qed.

(** X11. [resizeCanvas] leaves the context in source-over mode with the
    default colour whatever the tool, and [startDrawing] sets the colour but
    not the mode: with the eraser selected, a gesture begun after a resize
    draws in source-over mode with the eraser's opaque colour, until the
    eraser is chosen again. *)
Theorem resize_forgets_eraser (s : State) (ev : PointerEvent) :
  usable (canvas s) = true -> tool s = eraser ->
  exists s',
    resizeCanvas s = Done s'
    /\ tool s' = eraser
    /\ globalCompositeOperation (cur (ctx s')) = "source-over"%string
    /\ globalCompositeOperation
         (cur (ctx (after (dispatch (pointerdown ev) s'))))
       = "source-over"%string
    /\ strokeStyle (cur (ctx (after (dispatch (pointerdown ev) s'))))
       = "rgba(0,0,0,1)"%string
    /\ globalCompositeOperation
         (cur (ctx (run [eraser_click; pointerdown ev] s')))
       = "destination-out"%string.
Proof.
  intros Hu Ht.
  destruct (resizeCanvas_usable s Hu) as (s' & E & _).
  destruct (resizeCanvas_style s Hu) as (H1 & _ & H3 & _).
  rewrite E in H1, H3. cbn [after] in H1, H3.
  exists s'. split; [exact E |]. clear E.
  destruct (pointerdown_style ev s') as [P1 P2].
  destruct (pointerdown_style ev (after (dispatch eraser_click s'))) as [Q1 _].
  destruct (tool_click_style s') as [[_ T] _].
  rewrite H1 in *. rewrite Ht in P2.
  repeat split; try congruence.
  change (run [eraser_click; pointerdown ev] s')
    with (after (dispatch (pointerdown ev) (after (dispatch eraser_click s')))).
  congruence.
Qed.

(** X12. A colour picked while the eraser is selected does not reach the
    context: the next gesture still draws with the eraser's colour, and the
    picked colour is the one a gesture draws with once the brush is chosen
    again.  With the brush selected the next gesture draws with it at
    once. *)
Theorem colour_waits_for_brush (c : string) (s : State) (ev : PointerEvent) :
  (tool s = eraser ->
   strokeStyle (cur (ctx (run [color_input c; pointerdown ev] s)))
   = "rgba(0,0,0,1)"%string
   /\ strokeStyle
        (cur (ctx (run [color_input c; brush_click; pointerdown ev] s)))
      = c)
  /\ (tool s = brush ->
      strokeStyle (cur (ctx (run [color_input c; pointerdown ev] s))) = c).
Proof.
  destruct (color_input_style c s) as [C1 C2].
  remember (after (dispatch (color_input c) s)) as s1 eqn:E1.
  destruct (tool_click_style s1) as [_ (B1 & B2 & _)].
  remember (after (dispatch brush_click s1)) as s2 eqn:E2.
  destruct (pointerdown_style ev s1) as [_ P1].
  destruct (pointerdown_style ev s2) as [_ P2].
  change (run [color_input c; pointerdown ev] s)
    with (after (dispatch (pointerdown ev) (after (dispatch (color_input c) s)))).
  change (run [color_input c; brush_click; pointerdown ev] s)
    with (after (dispatch (pointerdown ev)
            (after (dispatch brush_click (after (dispatch (color_input c) s)))))).
  rewrite <- E1, <- E2. rewrite P1, P2, B1, B2, C1, C2.
  split; intros Ht; rewrite ?Ht; repeat split; reflexivity.
Qed.

Lemma getPoint_same (ev : PointerEvent) (s s0 : State) :
  world s = world s0 ->
  width (canvas s) = width (canvas s0) ->
  height (canvas s) = height (canvas s0) ->
  fst (getPoint ev s) = fst (getPoint ev s0).
Proof.
  intros Hw Hx Hy. unfold getPoint. cbn [fst]. now rewrite Hw, Hx, Hy.
Qed.

Lemma pointermove_step (ev : PointerEvent) (s : State) (last : Point) :
  drawing s = true -> lastPoint s = Some last ->
  path (ctx (after (dispatch (pointermove ev) s)))
  = path (ctx s)
    ++ [quadraticCurveTo (x last) (y last)
          ((x last + x (fst (getPoint ev s))) / 2)
          ((y last + y (fst (getPoint ev s))) / 2)]
  /\ bits (canvas (after (dispatch (pointermove ev) s)))
     = stroke (cur (ctx s))
         (path (ctx s)
          ++ [quadraticCurveTo (x last) (y last)
                ((x last + x (fst (getPoint ev s))) / 2)
                ((y last + y (fst (getPoint ev s))) / 2)])
         (bits (canvas s))
  /\ cur (ctx (after (dispatch (pointermove ev) s))) = cur (ctx s)
  /\ drawing (after (dispatch (pointermove ev) s)) = true
  /\ lastPoint (after (dispatch (pointermove ev) s)) = Some (fst (getPoint ev s))
  /\ world (after (dispatch (pointermove ev) s)) = world s
  /\ width (canvas (after (dispatch (pointermove ev) s))) = width (canvas s)
  /\ height (canvas (after (dispatch (pointermove ev) s))) = height (canvas s).
Proof.
  intros Hd Hl. listeners. rewrite ?Hd. fields. rewrite ?Hd, ?Hl. fields.
  rewrite ?Hd, ?Hl. repeat split; assumption || reflexivity.
Qed.

Lemma pointermoves_trace (s0 : State) (ms : list PointerEvent) :
  forall (s : State) (last : Point),
    drawing s = true -> lastPoint s = Some last ->
    world s = world s0 ->
    width (canvas s) = width (canvas s0) ->
    height (canvas s) = height (canvas s0) ->
    path (ctx (run (map pointermove ms) s))
    = path (ctx s) ++ smooth last (map (fun ev => fst (getPoint ev s0)) ms)
    /\ bits (canvas (run (map pointermove ms) s))
       = strokes (cur (ctx s)) (path (ctx s))
           (smooth last (map (fun ev => fst (getPoint ev s0)) ms))
           (bits (canvas s))
    /\ drawing (run (map pointermove ms) s) = true.
Proof.
  induction ms as [| ev ms IH]; intros s last Hd Hl Hw Hx Hy.
  - cbn [map run smooth strokes]. rewrite app_nil_r. repeat split. exact Hd.
  - cbn [map run].
    destruct (pointermove_step ev s last Hd Hl)
      as (P1 & P2 & P3 & P4 & P5 & P6 & P7 & P8).
    remember (after (dispatch (pointermove ev) s)) as s1 eqn:E1. clear E1.
    rewrite (getPoint_same ev s s0 Hw Hx Hy) in *.
    destruct (IH s1 (fst (getPoint ev s0)) P4 P5
                (eq_trans P6 Hw) (eq_trans P7 Hx) (eq_trans P8 Hy))
      as (Q1 & Q2 & Q3).
    rewrite Q1, Q2, P1, P2, P3. cbn [smooth strokes].
    rewrite <- app_assoc. cbn [app].
    repeat split; try reflexivity. exact Q3.
Qed.

Lemma pointerdown_trace (ev : PointerEvent) (s : State) :
  cur (ctx (after (dispatch (pointerdown ev) s)))
  = cur (ctx (startDrawing (fst (getPoint ev s)) s))
  /\ bits (canvas (after (dispatch (pointerdown ev) s))) = bits (canvas s)
  /\ world (after (dispatch (pointerdown ev) s)) = world s
  /\ width (canvas (after (dispatch (pointerdown ev) s))) = width (canvas s)
  /\ height (canvas (after (dispatch (pointerdown ev) s))) = height (canvas s).
Proof.
  listeners. split_cases; repeat split; reflexivity.
Qed.

Lemma endDrawing_path (s : State) :
  drawing s = true ->
  path (ctx (endDrawing s)) = path (ctx s) ++ [closePath].
Proof.
  intros Hd. unfold endDrawing, pushUndo, updateUndoRedoButtons, ctx_call.
  rewrite Hd. split_cases; reflexivity.
Qed.

(** X13. A gesture builds the path [moveTo p0], one quadratic curve per
    [pointermove] with the previous point as control point and the midpoint
    to the new point as end point, then [closePath]; the bitmap is stroked
    once per [pointermove], each time along the whole path built so far,
    with the drawing state [startDrawing] has set.  The points are those
    [getPoint] gives on the state before the gesture, the position of the
    final [pointerup] or [pointercancel] is not used, and a gesture without
    a [pointermove] leaves the bitmap as it was. *)
Theorem gesture_draws_smoothed_path (g : Gesture) (s : State) :
  path (ctx (run (events_of g) s))
  = moveTo (x (fst (getPoint (g_down g) s))) (y (fst (getPoint (g_down g) s)))
    :: smooth (fst (getPoint (g_down g) s))
         (map (fun ev => fst (getPoint ev s)) (g_moves g))
    ++ [closePath]
  /\ bits (canvas (run (events_of g) s))
     = strokes (cur (ctx (startDrawing (fst (getPoint (g_down g) s)) s)))
         [moveTo (x (fst (getPoint (g_down g) s)))
                 (y (fst (getPoint (g_down g) s)))]
         (smooth (fst (getPoint (g_down g) s))
            (map (fun ev => fst (getPoint ev s)) (g_moves g)))
         (bits (canvas s))
  /\ (g_moves g = [] -> bits (canvas (run (events_of g) s)) = bits (canvas s)).
Proof.
  assert (M : path (ctx (run (events_of g) s))
    = moveTo (x (fst (getPoint (g_down g) s))) (y (fst (getPoint (g_down g) s)))
      :: smooth (fst (getPoint (g_down g) s))
           (map (fun ev => fst (getPoint ev s)) (g_moves g))
      ++ [closePath]
    /\ bits (canvas (run (events_of g) s))
       = strokes (cur (ctx (startDrawing (fst (getPoint (g_down g) s)) s)))
           [moveTo (x (fst (getPoint (g_down g) s)))
                   (y (fst (getPoint (g_down g) s)))]
           (smooth (fst (getPoint (g_down g) s))
              (map (fun ev => fst (getPoint ev s)) (g_moves g)))
           (bits (canvas s))).
  { unfold events_of. cbn [run]. rewrite run_app.
    destruct (pointerdown_spec (g_down g) s)
      as (s1 & E1 & D1 & D2 & D3 & _).
    destruct (pointerdown_trace (g_down g) s) as (T1 & T2 & T3 & T4 & T5).
    rewrite E1 in *. cbn [after] in *. clear E1.
    destruct (pointermoves_trace s (g_moves g) s1 _ D1 D2 T3 T4 T5)
      as (Q1 & Q2 & Q3).
    remember (run (map pointermove (g_moves g)) s1) as s2 eqn:E2. clear E2.
    assert (He : ending_event
                   (if g_cancelled g then pointercancel (g_end g)
                    else pointerup (g_end g)))
      by (destruct (g_cancelled g); exact I).
    cbn [run].
    destruct (ending_event_spec _ s2 He Q3) as (_ & B & _).
    destruct (ending_event_eq _ s2 He Q3) as [i E].
    split.
    - rewrite E. cbn [after]. rewrite endDrawing_path.
      + unfold releasePointerCapture. fields. rewrite Q1, D3. reflexivity.
      + exact Q3.
    - rewrite B, Q2, D3, T1, T2. reflexivity. }
  destruct M as [M1 M2]. split; [exact M1 |]. split; [exact M2 |].
  intros Hm. rewrite M2, Hm. reflexivity.
Qed.

(** X14. When [undo()] is followed by [redo()] and the restore that
    [redo()] started is delivered before the one [undo()] started, both
    lists are as before the undo and no restore is left pending, but the
    picture painted last is the one of the entry below the top of the undo
    list. *)
Theorem out_of_order_restores (s : State) (rest : list string)
    (prev top : string) (img : bitmap) :
  undoStack s = rest ++ [prev; top] ->
  String.eqb prev EmptyString = false ->
  decode prev = Some img ->
  undoStack (race s) = undoStack s
  /\ redoStack (race s) = redoStack s
  /\ loading (race s) = loading s
  /\ bits (canvas (race s))
     = bits (canvas (onload img
         (run [undo_click; redo_click; load (S (List.length (loading s)))] s))).
Proof.
  intros Hu Hp Hi.
  assert (Hlen : (1 < List.length (undoStack s))%nat).
  { rewrite Hu, length_app. cbn [List.length]. lia. }
  destruct (undo_moves_one s Hlen) as (last & rest' & U1 & U2 & U3 & _ & U5).
  assert (Hsplit : rest' = rest ++ [prev] /\ last = top).
  { rewrite Hu in U1.
    change (rest ++ [prev; top]) with (rest ++ [prev] ++ [top]) in U1.
    rewrite app_assoc in U1. apply app_inj_tail in U1. destruct U1; now split. }
  destruct Hsplit as [-> ->].
  assert (U5' : loading (undo s) = loading s ++ [prev]).
  { rewrite U5, length_app. cbn [List.length].
    rewrite Nat.add_sub, nth_error_app2 by lia.
    rewrite Nat.sub_diag. cbn [nth_error]. now rewrite Hp. }
  clear U5.
  assert (Hne : redoStack (undo s) <> []).
  { rewrite U3. intros F. apply app_eq_nil in F. destruct F; discriminate. }
  destruct (redo_moves_one (undo s) Hne) as (next & rest2 & R1 & R2 & R3 & _ & R5).
  assert (Hsplit : rest2 = redoStack s /\ next = top).
  { rewrite U3 in R1. apply app_inj_tail in R1. destruct R1; now split. }
  destruct Hsplit as [-> ->].
  unfold race. cbn [run dispatch after].
  remember (redo (undo s)) as s2 eqn:E2.
  assert (L2 : loading s2 = (loading s ++ [prev]) ++ top :: []).
  { rewrite R5, U5'. reflexivity. }
  assert (K : S (List.length (loading s)) = List.length (loading s ++ [prev])).
  { rewrite length_app. cbn [List.length]. lia. }
  rewrite K.
  destruct (on_load_spec _ _ _ s2 L2) as (A1 & A2 & A3 & _).
  remember (on_load (List.length (loading s ++ [prev])) s2) as s3 eqn:E3.
  rewrite app_nil_r in A3.
  destruct (on_load_spec (loading s) [] prev s3 A3) as (B1 & B2 & B3 & B4).
  rewrite Hi in B4.
  repeat split.
  - rewrite B1, A1, R3, U2, Hu, <- app_assoc. reflexivity.
  - rewrite B2, A2, R2. reflexivity.
  - rewrite B3. apply app_nil_r.
  - exact B4.
Qed.

(** X15. A delivered restore only repaints: the lists, the gesture in
    progress, the tool, the size of the canvas and the whole context, its
    drawing state and the path under construction included, are as before,
    and one pending restore at most is gone. *)
Theorem restore_only_repaints (i : nat) (s : State) :
  undoStack (after (dispatch (load i) s)) = undoStack s
  /\ redoStack (after (dispatch (load i) s)) = redoStack s
  /\ drawing (after (dispatch (load i) s)) = drawing s
  /\ lastPoint (after (dispatch (load i) s)) = lastPoint s
  /\ tool (after (dispatch (load i) s)) = tool s
  /\ ctx (after (dispatch (load i) s)) = ctx s
  /\ width (canvas (after (dispatch (load i) s))) = width (canvas s)
  /\ height (canvas (after (dispatch (load i) s))) = height (canvas s).
Proof.
  listeners. split_cases; repeat split; try reflexivity;
    destruct (ctx s); reflexivity.
Qed.

Lemma reachable_run (p : Page) (es : list Event) (s : State) :
  reachable p s -> reachable p (run es s).
Proof.
  revert s. induction es as [| e es IH]; intros s H; [exact H |].
  cbn [run]. apply IH. now apply reach_event.
Qed.

(** X17. In a state the page can reach, a listener raises an exception
    only where the user agent refuses a call: the [InvalidStateError] of
    [drawImage] on a canvas without pixels, in the save listener and in the
    debounced resize; the [SecurityError] of [toBlob], in the save listener
    on a canvas with pixels; and the [TypeError] of [URL.createObjectURL]
    in the [toBlob] callback when it is handed [null].  The pointer
    listeners never throw: [drawTo] never reads a missing last point. *)
Theorem listener_exceptions (p : Page) (s : State) (e : Event)
    (err : Exception) (s' : State) :
  reachable p s -> dispatch e s = Thrown err s' ->
  (err = InvalidStateError
   /\ usable (canvas s) = false
   /\ (e = save_click \/ e = timeout))
  \/ (err = SecurityError /\ usable (canvas s) = true /\ e = save_click)
  \/ (err = TypeError
      /\ exists i, e = blob i /\ nth_error (exporting s) i = Some None).
Proof.
  intros Hr H. pose proof (reachable_gesture_ok p s Hr) as G. clear Hr.
  destruct e; cbn [dispatch] in H; try discriminate H.
  - unfold on_pointermove, getPoint, drawTo in H.
    destruct (drawing s) eqn:Hd; cbn [negb] in H; [| discriminate H].
    destruct (lastPoint s) eqn:Hl; [discriminate H |].
    now destruct (G Hd).
  - unfold on_pointerup in H. destruct (negb (drawing s)); discriminate H.
  - unfold on_pointercancel in H. destruct (negb (drawing s)); discriminate H.
  - unfold on_save_click in H. cbv zeta in H.
    destruct (usable (canvas s)) eqn:Hu; cbn [negb] in H.
    + destruct (toBlob _ _); [discriminate H |].
      injection H as <- _. right. left. now repeat split.
    + injection H as <- _. left. repeat split. now left.
  - unfold on_timeout in H. destruct (resizeTimer s); [| discriminate H].
    destruct (usable (canvas s)) eqn:Hu.
    + destruct (resizeCanvas_usable (set_resizeTimer false s) Hu) as (s1 & E & _).
      rewrite E in H. discriminate H.
    + rewrite (resizeCanvas_unusable (set_resizeTimer false s) Hu) in H.
      injection H as <- _. left. repeat split. now right.
  - unfold on_blob in H.
    destruct (nth_error (exporting s) i) as [[d |] |] eqn:Hi;
      try discriminate H.
    injection H as <- _. right. right. split; [reflexivity |].
    exists i. now split.
Qed.

(** X20. When the save listener returns normally it has changed nothing
    but the list of pending [toBlob] callbacks, which holds one more; and
    when that callback has run the state is again what it was before the
    click, whether the callback downloaded a blob or threw on [null]. *)
Theorem export_leaves_no_trace (s s1 : State) :
  dispatch save_click s = Done s1 ->
  exists b,
    s1 = set_exporting (exporting s ++ [b]) s
    /\ after (dispatch (blob (List.length (exporting s))) s1) = s
    /\ raised (dispatch (blob (List.length (exporting s))) s1)
       = match b with None => true | Some _ => false end.
Proof.
  cbn [dispatch]. unfold on_save_click. cbv zeta.
  destruct (usable (canvas s)); cbn [negb]; [| discriminate].
  destruct (toBlob _ _) as [b |]; [| discriminate].
  intros H. injection H as <-. exists b. split; [reflexivity |].
  unfold on_blob. fields.
  rewrite nth_error_middle, remove_middle, app_nil_r.
  destruct s; destruct b; split; reflexivity.
Qed.

Lemma size_input_width (v : JS.number) (s : State) :
  size (after (dispatch (size_input v) s)) = v
  /\ lineWidth (cur (ctx (after (dispatch (size_input v) s))))
     = if PrimFloat.is_finite v && PrimFloat.ltb 0 v then v
       else lineWidth (cur (ctx s)).
Proof.
  listeners. split_cases; split; reflexivity.
Qed.

Lemma pointerdown_width (ev : PointerEvent) (s : State) :
  lineWidth (cur (ctx (after (dispatch (pointerdown ev) s))))
  = if PrimFloat.is_finite (size s) && PrimFloat.ltb 0 (size s) then size s
    else lineWidth (cur (ctx s)).
Proof.
  listeners. split_cases; reflexivity.
Qed.

(** X18. A size that is zero, negative, infinite or not a number is
    stored by the size listener but never reaches the context: the line
    width stays what it was, also at the start of the next gesture.  A
    positive finite size is the line width from then on. *)
Theorem invalid_size_is_ignored (v : JS.number) (s : State) (ev : PointerEvent) :
  size (after (dispatch (size_input v) s)) = v
  /\ (PrimFloat.is_finite v && PrimFloat.ltb 0 v = false ->
      lineWidth (cur (ctx (after (dispatch (size_input v) s))))
      = lineWidth (cur (ctx s))
      /\ lineWidth (cur (ctx (run [size_input v; pointerdown ev] s)))
         = lineWidth (cur (ctx s)))
  /\ (PrimFloat.is_finite v && PrimFloat.ltb 0 v = true ->
      lineWidth (cur (ctx (after (dispatch (size_input v) s)))) = v
      /\ lineWidth (cur (ctx (run [size_input v; pointerdown ev] s))) = v).
Proof.
  destruct (size_input_width v s) as [S1 S2].
  change (run [size_input v; pointerdown ev] s)
    with (after (dispatch (pointerdown ev) (after (dispatch (size_input v) s)))).
  remember (after (dispatch (size_input v) s)) as s1 eqn:E1. clear E1.
  rewrite (pointerdown_width ev s1), S1, S2.
  split; [reflexivity |].
  split; intros Hv; rewrite Hv; split; reflexivity.
Qed.

Lemma resizeCanvas_keeps (s : State) :
  loading (after (resizeCanvas s)) = loading s
  /\ world (after (resizeCanvas s)) = world s.
Proof.
  listeners. split_cases; split; reflexivity.
Qed.

(** X19. On a canvas element without pixels the script stops at the first
    [resizeCanvas]: the exception leaves [init], and the page is left as
    the white fill found it, no tool chosen and nothing captured.  On an
    element with pixels the script completes with the brush chosen, the
    context in source-over mode with the colour of the picker, and no
    restore pending. *)
Theorem startup_needs_pixels (p : Page) :
  (usable (canvas (start p)) = false ->
   script p = Thrown InvalidStateError (fillBackgroundWhite (start p)))
  /\ (usable (canvas (start p)) = true ->
      exists s,
        script p = Done s
        /\ tool s = brush
        /\ globalCompositeOperation (cur (ctx s)) = "source-over"%string
        /\ strokeStyle (cur (ctx s)) = page_color p
        /\ loading s = []
        /\ world s = page_world p).
Proof.
  split; intros Hu.
  - unfold script, init.
    now rewrite (resizeCanvas_unusable (fillBackgroundWhite (start p)) Hu).
  - assert (Hu' : usable (canvas (fillBackgroundWhite (start p))) = true)
      by exact Hu.
    destruct (resizeCanvas_usable _ Hu') as (s1 & E & _).
    destruct (resizeCanvas_style _ Hu') as (_ & C & _).
    destruct (resizeCanvas_keeps (fillBackgroundWhite (start p))) as [F1 F2].
    unfold script, init. rewrite E in *. cbn [after] in C, F1, F2.
    change (loading (fillBackgroundWhite (start p))) with (@nil string) in F1.
    change (world (fillBackgroundWhite (start p))) with (page_world p) in F2.
    change (color (fillBackgroundWhite (start p))) with (page_color p) in C.
    eexists. split; [reflexivity |].
    unfold pushUndo, updateUndoRedoButtons, setBrush.
    split_cases; fields; rewrite ?C, ?F1, ?F2; repeat split; reflexivity.
Qed.

End Composition.

(** ** The statements on the small page *)

Lemma script_small_page : script small_page = Done s_init.
Proof. vm_compute. reflexivity. Qed.

Lemma grid_always_encodes (b : Grid.bitmap) (t : string) : toDataURL b t <> None.
Proof.
  unfold toDataURL, GridAgent, Grid.toDataURL.
  destruct (_ || _); discriminate.
Qed.

Lemma undo_length_after_gestures_witness :
  List.length (undoStack (run busy_trace s_init)) = Nat.min (2 + 1) MAX_STEPS
  /\ exists d,
       toDataURL
         (bits (canvas (run ((busy_trace ++ [pointerdown (at_ 1.5 0.5)])
                             ++ [pointerup (at_ 1.5 0.5)]) s_init)))
         "image/png" = Some d
       /\ undoStack (run ((busy_trace ++ [pointerdown (at_ 1.5 0.5)])
                          ++ [pointerup (at_ 1.5 0.5)]) s_init)
          = undoStack (run (busy_trace ++ [pointerdown (at_ 1.5 0.5)]) s_init)
            ++ [d].
Proof.
  split.
  - refine (proj1 (undo_length_after_gestures small_page s_init busy_trace
                     grid_always_encodes script_small_page _)).
    vm_compute. reflexivity.
  - destruct (proj2 (undo_length_after_gestures small_page s_init
                       (busy_trace ++ [pointerdown (at_ 1.5 0.5)])
                       grid_always_encodes script_small_page
                       ltac:(vm_compute; reflexivity))
                (pointerup (at_ 1.5 0.5)) I ltac:(vm_compute; reflexivity))
      as (d & Hd & Hu).
    exists d. split; [exact Hd |]. rewrite Hu. vm_compute. reflexivity.
Defined.

(** The scenario of thirty-five gestures: the list stops at thirty entries
    and the blank capture of the start is no longer its first. *)
Example thirty_five_gestures :
  List.length (undoStack (perform (repeat stroke1 35) s_init)) = 30%nat
  /\ hd_error (undoStack (perform (repeat stroke1 35) s_init)) <> hd_error (undoStack s_init).
Proof.
  split; [vm_compute; reflexivity | vm_compute; discriminate].
Qed.

Lemma gesture_end_empties_redo_witness :
  redoStack s_redoable <> []
  /\ redoStack (after (dispatch (pointerup (at_ 3.5 1.5)) s_redoable)) = []
  /\ redoStack (after (dispatch (pointercancel (at_ 3.5 1.5)) s_redoable)) = [].
Proof.
  split; [vm_compute; discriminate |].
  apply (gesture_end_empties_redo s_redoable (at_ 3.5 1.5)).
  vm_compute. reflexivity.
Defined.

Lemma underflow_is_noop_witness :
  (undo s_init = s_init /\ dispatch undo_click s_init = Done s_init)
  /\ (redo s_init = s_init /\ dispatch redo_click s_init = Done s_init).
Proof.
  split.
  - apply (proj1 (underflow_is_noop s_init)). vm_compute. lia.
  - apply (proj2 (underflow_is_noop s_init)). vm_compute. reflexivity.
Defined.

Lemma undo_redo_transfer_one_witness :
  (List.length (undoStack (undo s_stroke)) + List.length (redoStack (undo s_stroke))
   = List.length (undoStack s_stroke) + List.length (redoStack s_stroke))%nat
  /\ (List.length (undoStack (redo (undo s_stroke)))
      + List.length (redoStack (redo (undo s_stroke)))
      = List.length (undoStack (undo s_stroke))
        + List.length (redoStack (undo s_stroke)))%nat.
Proof.
  split.
  - apply (proj1 (undo_redo_transfer_one s_stroke)). vm_compute. lia.
  - apply (proj2 (undo_redo_transfer_one (undo s_stroke))). vm_compute. discriminate.
Defined.

Lemma move_extends_path_witness :
  (exists last s',
     lastPoint s_down = Some last
     /\ dispatch (pointermove (at_ 2.5 1.5)) s_down = Done s'
     /\ path (ctx s')
        = path (ctx s_down)
          ++ [quadraticCurveTo (x last) (y last)
                ((x last + x (fst (getPoint (at_ 2.5 1.5) s_down))) / 2)
                ((y last + y (fst (getPoint (at_ 2.5 1.5) s_down))) / 2)]
     /\ bits (canvas s')
        = stroke (cur (ctx s_down)) (path (ctx s')) (bits (canvas s_down))
     /\ lastPoint s' = Some (fst (getPoint (at_ 2.5 1.5) s_down))
     /\ drawing s' = true
     /\ undoStack s' = undoStack s_down
     /\ redoStack s' = redoStack s_down)
  /\ dispatch (pointermove (at_ 2.5 1.5)) s_init = Done s_init.
Proof.
  split.
  - apply (proj1 (move_extends_path small_page s_down (at_ 2.5 1.5)
                    (reach_event small_page (pointerdown (at_ 0.5 0.5)) s_init
                       (reach_script small_page s_init script_small_page)))).
    vm_compute. reflexivity.
  - apply (proj2 (move_extends_path small_page s_init (at_ 2.5 1.5)
                    (reach_script small_page s_init script_small_page))).
    vm_compute. reflexivity.
Defined.

Lemma second_pointerdown_restarts_witness :
  exists s',
    dispatch (pointerdown (at_ 3.5 0.5)) s_down = Done s'
    /\ drawing s' = true
    /\ lastPoint s' = Some (fst (getPoint (at_ 3.5 0.5) s_down))
    /\ undoStack s' = undoStack s_down
    /\ drawing (run ([pointermove (at_ 3.5 1.5)] ++ [pointerup (at_ 3.5 1.5)]) s')
       = false.
Proof.
  destruct (second_pointerdown_restarts s_down (at_ 3.5 0.5))
    as (s' & H1 & H2 & H3 & _ & _ & H6 & _ & H8).
  - vm_compute. reflexivity.
  - exists s'. repeat split; try assumption.
    apply (H8 [pointermove (at_ 3.5 1.5)] (pointerup (at_ 3.5 1.5))).
    + repeat constructor.
    + exact I.
Defined.

Lemma zero_display_resize_witness :
  (exists s', resizeCanvas s_zero = Done s' /\ width (canvas s') = 0)
  /\ (exists s', resizeCanvas s_flat = Done s' /\ height (canvas s') = 0).
Proof.
  split.
  - destruct (zero_display_resize s_zero) as (s' & H1 & _ & _ & H4 & _).
    + vm_compute. reflexivity.
    + exists s'. split; [exact H1 | apply H4; vm_compute; reflexivity].
  - destruct (zero_display_resize s_flat) as (s' & H1 & _ & _ & _ & H5 & _).
    + vm_compute. reflexivity.
    + exists s'. split; [exact H1 | apply H5; vm_compute; reflexivity].
Defined.

(** C4 as worded fails: with a display of no width the resize gives the
    canvas no width and the bitmap no pixel, where the specification keeps
    both. *)
Lemma zero_resize_reallocates : ~ zero_resize_is_noop s_zero.
Proof.
  intros H.
  assert (Hz : zero_display (world s_zero)) by (left; vm_compute; reflexivity).
  destruct (H Hz) as (_ & Hw & _).
  vm_compute in Hw. discriminate Hw.
Qed.

(** C2 on the script.  An eraser gesture has just been completed on the
    small page: no gesture is in progress, the undo list holds three entries
    and the one on top is the capture of the canvas as it is.  [undo()] and
    [redo()] and the two restores give both lists back, but the restores
    paint with the context as the eraser left it, in destination-out mode:
    the white fill and the snapshot erase where they should paint, and the
    canvas is left without a pixel. *)
Theorem round_trip_after_erasing :
  (2 <= List.length (undoStack s_erased))%nat
  /\ drawing s_erased = false
  /\ last (map Some (undoStack s_erased)) None
     = toDataURL (bits (canvas s_erased)) "image/png"
  /\ globalCompositeOperation (cur (ctx s_erased)) = "destination-out"%string
  /\ undoStack (round_trip s_erased) = undoStack s_erased
  /\ redoStack (round_trip s_erased) = redoStack s_erased
  /\ bits (canvas (round_trip s_erased)) = blank 4 2
  /\ bits (canvas (round_trip s_erased)) <> bits (canvas s_erased)
  /\ ~ round_trip_restores s_erased.
Proof.
  split; [vm_compute; lia |].
  split; [vm_compute; reflexivity |].
  split; [vm_compute; reflexivity |].
  split; [vm_compute; reflexivity |].
  split; [vm_compute; reflexivity |].
  split; [vm_compute; reflexivity |].
  split; [vm_compute; reflexivity |].
  split; [vm_compute; discriminate |].
  intros H.
  assert (Hlen : (2 <= List.length (undoStack s_erased))%nat) by (vm_compute; lia).
  destruct (H Hlen) as (Hb & _).
  vm_compute in Hb. discriminate Hb.
Qed.

(** The restore also scales the snapshot by [window.devicePixelRatio || 1],
    where [resizeCanvas] set the transform with that ratio raised to one at
    least: on a display of density one half the round trip after a brush
    stroke draws the snapshot at twice its size. *)
Example round_trip_at_half_density :
  (2 <= List.length (undoStack s_half_stroke))%nat
  /\ last (map Some (undoStack s_half_stroke)) None
     = toDataURL (bits (canvas s_half_stroke)) "image/png"
  /\ bits (canvas (round_trip s_half_stroke)) <> bits (canvas s_half_stroke).
Proof.
  split; [vm_compute; lia |].
  split; [vm_compute; reflexivity | vm_compute; discriminate].
Qed.

(** With the brush, on a display of density one, the round trip after a
    completed stroke gives the bitmap back. *)
Example round_trip_after_brush_stroke :
  bits (canvas (round_trip s_stroke)) = bits (canvas s_stroke).
Proof. vm_compute. reflexivity. Qed.

(** Nor does the round trip give the bitmap back during a gesture, when
    the canvas shows a curve that no undo entry holds: the restores paint
    the entry on top of the undo list and the curve is gone. *)
Lemma round_trip_during_gesture : ~ round_trip_restores s_mid.
Proof.
  intros H.
  assert (Hlen : (2 <= List.length (undoStack s_mid))%nat) by (vm_compute; lia).
  destruct (H Hlen) as (Hb & _).
  vm_compute in Hb. discriminate Hb.
Qed.

(** Nor does it hold after a stroke and a clear, when the entry on top of
    the undo list is the stroke and the canvas is blank: the round trip
    brings the stroke back. *)
Example round_trip_after_clear :
  bits (canvas (round_trip s_clear)) = bits (canvas s_stroke)
  /\ bits (canvas s_stroke) <> bits (canvas s_clear).
Proof.
  split; [vm_compute; reflexivity | vm_compute; discriminate].
Qed.

(** C5 on the script: after a stroke and a clear the newest undo entry is
    the capture of the stroke, taken before the canvas was cleared, and not
    the capture of the cleared canvas. *)
Lemma clear_keeps_old_picture_on_top :
  last (map Some (undoStack s_clear)) None
  = toDataURL (bits (canvas s_stroke)) "image/png"
  /\ ~ clear_is_captured s_stroke.
Proof.
  split; [vm_compute; reflexivity |].
  unfold clear_is_captured. intros H. vm_compute in H. discriminate H.
Qed.

(** What follows from it: a stroke drawn on the cleared canvas and then
    undone brings back the picture from before the clear. *)
Example undo_after_clear_resurrects :
  bits (canvas (run [undo_click; load 0] (perform [stroke2] s_clear)))
  = bits (canvas s_stroke)
  /\ bits (canvas s_stroke) <> bits (canvas s_clear).
Proof.
  split; [vm_compute; reflexivity | vm_compute; discriminate].
Qed.

(** The coordinate mapper on a canvas of backing width 4 shown 2 wide at
    density 2, one unit from the left edge. *)
Example getPoint_sample :
  fst (getPoint {| clientX := 3; clientY := 1; pointerId := 1 |}
         (after (dispatch
                   (layout {| rect_left := 1; rect_top := 0; rect_width := 2;
                              rect_height := 1; devicePixelRatio := 2 |})
                   s_init)))
  = {| x := 2; y := 1 |}.
Proof. vm_compute. reflexivity. Qed.

(** At density one the script divides by the device's density. *)
Lemma getPoint_formula_witness :
  getPoint (at_ 3 1) s_init = (specified_point (at_ 3 1) s_init, s_init).
Proof.
  destruct (getPoint_formula (at_ 3 1) s_init) as (_ & _ & H & _).
  apply H. vm_compute. reflexivity.
Defined.

(** C7 as worded fails on a display of density one half: the script
    divides by one and returns (3, 1) where the specification divides by
    the density and gives (6, 2). *)
Lemma getPoint_at_half_density : ~ getPoint_as_specified s_half.
Proof.
  intros H. specialize (H (at_ 3 1)).
  apply (f_equal (fun q => PrimFloat.eqb (x (fst q)) 3)) in H.
  vm_compute in H. discriminate H.
Qed.

Example getPoint_half_density_sample :
  fst (getPoint (at_ 3 1) s_half) = {| x := 3; y := 1 |}
  /\ specified_point (at_ 3 1) s_half = {| x := 6; y := 2 |}.
Proof. split; vm_compute; reflexivity. Qed.

(** *** The further properties on the small page *)

Lemma buttons_follow_history_witness : buttons_ok (run busy_trace s_init).
Proof.
  apply (buttons_follow_history small_page (run busy_trace s_init)
           (reachable_run small_page busy_trace s_init
              (reach_script small_page s_init script_small_page))).
Defined.

Lemma tool_buttons_follow_tool_witness : tool_shown (run busy_trace s_init).
Proof.
  apply (tool_buttons_follow_tool small_page (run busy_trace s_init)
           (reachable_run small_page busy_trace s_init
              (reach_script small_page s_init script_small_page))).
Defined.

Lemma history_bounded_witness :
  (List.length (undoStack (run busy_trace s_init))
   + List.length (redoStack (run busy_trace s_init)) <= MAX_STEPS)%nat.
Proof.
  apply (history_bounded small_page (run busy_trace s_init)
           (reachable_run small_page busy_trace s_init
              (reach_script small_page s_init script_small_page))).
Defined.

Lemma undo_floor_kept_witness :
  undoStack (run [undo_click; undo_click; undo_click] s_stroke) <> [].
Proof.
  apply (undo_floor_kept [undo_click; undo_click; undo_click] s_stroke).
  vm_compute. discriminate.
Defined.

Lemma context_stays_tidy_witness : context_tidy (run busy_trace s_init).
Proof.
  apply (context_stays_tidy small_page (run busy_trace s_init)
           (reachable_run small_page busy_trace s_init
              (reach_script small_page s_init script_small_page))).
Defined.

Lemma zero_size_is_permanent_witness :
  usable (canvas (run [layout small_world; resize; timeout] s_empty)) = false
  /\ resizeCanvas (run [layout small_world; resize; timeout] s_empty)
     = Thrown InvalidStateError (run [layout small_world; resize; timeout] s_empty)
  /\ dispatch save_click (run [layout small_world; resize; timeout] s_empty)
     = Thrown InvalidStateError (run [layout small_world; resize; timeout] s_empty).
Proof.
  apply (zero_size_is_permanent [layout small_world; resize; timeout] s_empty).
  vm_compute. reflexivity.
Defined.

Lemma failed_capture_is_swallowed_witness :
  exists s',
    @dispatch _ TaintedAgent (pointerup (at_ 2.5 1.5)) s_tainted = Done s'
    /\ drawing s' = false
    /\ undoStack s' = undoStack s_tainted
    /\ redoStack s' = []
    /\ bits (canvas s') = bits (canvas s_tainted).
Proof.
  apply (@failed_capture_is_swallowed _ TaintedAgent
           (pointerup (at_ 2.5 1.5)) s_tainted I).
  - vm_compute. reflexivity.
  - reflexivity.
Defined.

Lemma resize_forgets_eraser_witness :
  exists s',
    resizeCanvas s_eraser = Done s'
    /\ tool s' = eraser
    /\ globalCompositeOperation (cur (ctx s')) = "source-over"%string
    /\ globalCompositeOperation
         (cur (ctx (after (dispatch (pointerdown (at_ 3.5 0.5)) s'))))
       = "source-over"%string
    /\ strokeStyle (cur (ctx (after (dispatch (pointerdown (at_ 3.5 0.5)) s'))))
       = "rgba(0,0,0,1)"%string
    /\ globalCompositeOperation
         (cur (ctx (run [eraser_click; pointerdown (at_ 3.5 0.5)] s')))
       = "destination-out"%string.
Proof.
  apply (resize_forgets_eraser s_eraser (at_ 3.5 0.5)).
  - vm_compute. reflexivity.
  - vm_compute. reflexivity.
Defined.

Lemma colour_waits_for_brush_witness :
  (strokeStyle
     (cur (ctx (run [color_input "#00ff00"; pointerdown (at_ 3.5 0.5)] s_eraser)))
   = "rgba(0,0,0,1)"%string
   /\ strokeStyle
        (cur (ctx (run [color_input "#00ff00"; brush_click;
                        pointerdown (at_ 3.5 0.5)] s_eraser)))
      = "#00ff00"%string)
  /\ strokeStyle
       (cur (ctx (run [color_input "#00ff00"; pointerdown (at_ 3.5 0.5)] s_stroke)))
     = "#00ff00"%string.
Proof.
  split.
  - apply (proj1 (colour_waits_for_brush "#00ff00" s_eraser (at_ 3.5 0.5))).
    vm_compute. reflexivity.
  - apply (proj2 (colour_waits_for_brush "#00ff00" s_stroke (at_ 3.5 0.5))).
    vm_compute. reflexivity.
Defined.

Lemma gesture_draws_smoothed_path_witness :
  bits (canvas (run (events_of tap) s_stroke)) = bits (canvas s_stroke).
Proof.
  apply (proj2 (proj2 (gesture_draws_smoothed_path tap s_stroke))).
  reflexivity.
Defined.

Lemma out_of_order_restores_witness :
  undoStack (race s_stroke) = undoStack s_stroke
  /\ redoStack (race s_stroke) = redoStack s_stroke
  /\ loading (race s_stroke) = loading s_stroke.
Proof.
  destruct (out_of_order_restores s_stroke []
              (nth 0 (undoStack s_stroke) EmptyString)
              (nth 1 (undoStack s_stroke) EmptyString)
              (bits (canvas s_init))
              ltac:(vm_compute; reflexivity)
              ltac:(vm_compute; reflexivity)
              ltac:(vm_compute; reflexivity))
    as (H1 & H2 & H3 & _).
  exact (conj H1 (conj H2 H3)).
Defined.

(** What the race costs: the stroke is on the undo list and not on the
    canvas. *)
Example race_loses_the_stroke :
  bits (canvas (race s_stroke)) = bits (canvas s_init)
  /\ bits (canvas s_init) <> bits (canvas s_stroke)
  /\ last (undoStack (race s_stroke)) EmptyString
     = last (undoStack s_stroke) EmptyString.
Proof.
  split; [vm_compute; reflexivity |].
  split; [vm_compute; discriminate | vm_compute; reflexivity].
Qed.

Lemma listener_exceptions_witness :
  (TypeError = InvalidStateError
   /\ usable (canvas (@run _ NullBlobAgent [save_click] s_null_start)) = false
   /\ (blob 0 = save_click \/ blob 0 = timeout))
  \/ (TypeError = SecurityError
      /\ usable (canvas (@run _ NullBlobAgent [save_click] s_null_start)) = true
      /\ blob 0 = save_click)
  \/ (TypeError = TypeError
      /\ exists i,
           blob 0 = blob i
           /\ nth_error
                (exporting (@run _ NullBlobAgent [save_click] s_null_start)) i
              = Some None).
Proof.
  apply (@listener_exceptions _ NullBlobAgent small_page
           (@run _ NullBlobAgent [save_click] s_null_start)
           (blob 0) TypeError
           (after (@dispatch _ NullBlobAgent (blob 0)
                     (@run _ NullBlobAgent [save_click] s_null_start)))
           (@reachable_run _ NullBlobAgent small_page [save_click] s_null_start
              (@reach_script _ NullBlobAgent small_page s_null_start
                 ltac:(vm_compute; reflexivity)))).
  vm_compute. reflexivity.
Defined.

Lemma export_leaves_no_trace_witness :
  exists b,
    after (dispatch save_click s_stroke)
    = set_exporting (exporting s_stroke ++ [b]) s_stroke
    /\ after (dispatch (blob (List.length (exporting s_stroke)))
                (after (dispatch save_click s_stroke)))
       = s_stroke
    /\ raised (dispatch (blob (List.length (exporting s_stroke)))
                 (after (dispatch save_click s_stroke)))
       = match b with None => true | Some _ => false end.
Proof.
  apply (export_leaves_no_trace s_stroke (after (dispatch save_click s_stroke))).
  vm_compute. reflexivity.
Defined.

Lemma invalid_size_is_ignored_witness :
  (lineWidth (cur (ctx (after (dispatch (size_input 0) s_stroke))))
   = lineWidth (cur (ctx s_stroke))
   /\ lineWidth
        (cur (ctx (run [size_input 0; pointerdown (at_ 3.5 0.5)] s_stroke)))
      = lineWidth (cur (ctx s_stroke)))
  /\ (lineWidth (cur (ctx (after (dispatch (size_input 3) s_stroke)))) = 3%float
      /\ lineWidth
           (cur (ctx (run [size_input 3; pointerdown (at_ 3.5 0.5)] s_stroke)))
         = 3%float).
Proof.
  split.
  - apply (proj1 (proj2 (invalid_size_is_ignored 0 s_stroke (at_ 3.5 0.5)))).
    vm_compute. reflexivity.
  - apply (proj2 (proj2 (invalid_size_is_ignored 3 s_stroke (at_ 3.5 0.5)))).
    vm_compute. reflexivity.
Defined.

Lemma startup_needs_pixels_witness :
  script empty_page
  = Thrown InvalidStateError (fillBackgroundWhite (start empty_page))
  /\ exists s,
       script small_page = Done s
       /\ tool s = brush
       /\ globalCompositeOperation (cur (ctx s)) = "source-over"%string
       /\ strokeStyle (cur (ctx s)) = page_color small_page
       /\ loading s = []
       /\ world s = page_world small_page.
Proof.
  split.
  - apply (proj1 (startup_needs_pixels empty_page)). vm_compute. reflexivity.
  - apply (proj2 (startup_needs_pixels small_page)). vm_compute. reflexivity.
Defined.
